(** * kortschak/scheduler: the scheduler and the listener programs

    A shallow embedding of the two [main] packages of the repository
    (the cron publisher, [scheduler], and the Pub/Sub subscriber,
    [listener]) together with a small model of what they talk to: the
    Pub/Sub service, the cron library, the YAML decoder and the process
    environment.  The programs are sequences of calls to these
    collaborators, so they are written in a state monad over the state of
    the message bus that also records, in order, every observable action
    (log lines, RPCs, process exit).

    Conventions of the model:
    - what the source does not determine (failures of the transport, the
      verdicts of the cron and duration parsers, the signals, the messages)
      is a choice of the environment, [env];
    - an iterator of the client is the finite sequence of results its
      [Next] returns before [iterator.Done];
    - the goroutines of a run are taken one after the other: the receive
      callbacks, then the receivers that end, then the wait of [main]. *)

From Stdlib Require Import ZArith Ascii String.
From stdpp Require Import gmap strings list fin_maps.

Local Open Scope string_scope.
Local Open Scope Z_scope.

(** ** Errors *)

(** [google.golang.org/grpc/codes]. *)
Inductive code :=
| OK | Canceled | Unknown | InvalidArgument | DeadlineExceeded | NotFound
| AlreadyExists | PermissionDenied | ResourceExhausted | FailedPrecondition
| Aborted | OutOfRange | Unimplemented | Internal | Unavailable | DataLoss
| Unauthenticated.

(** Go [error] values, as far as the programs tell them apart. *)
Inductive error :=
| EStatus (c : code)       (* an error that carries a gRPC status *)
| EContextCanceled         (* context.Canceled *)
| EOther (msg : string).   (* any other error *)

#[global] Instance code_eq_dec : EqDecision code.
Proof. solve_decision. Defined.
#[global] Instance error_eq_dec : EqDecision error.
Proof. solve_decision. Defined.

(** [grpc.Code(err)]: the status code of an RPC error, [codes.Unknown] for
    an error that did not come from the RPC system. *)
Definition grpc_Code (err : error) : code :=
  match err with
  | EStatus c => c
  | _ => Unknown
  end.

(** ** Values of dynamic type *)

(** What the YAML decoder stores in a field of type [interface{}] (such as
    [SubscriptionConfig.ExpirationPolicy], an [optional.Duration]), and the
    [time.Duration] the listener replaces it with. *)
#[local] Unset Elimination Schemes.
Inductive dynamic :=
| Nil
| Str (s : string)
| Int (n : Z)
| Int64 (n : Z)
| Uint64 (n : Z)
| Float64 (literal : string)
| Bool (b : bool)
| Seq (items : list dynamic)
| Map (items : list (dynamic * dynamic))
| Duration (d : Z).
#[local] Set Elimination Schemes.

(** [time.Second], in nanoseconds. *)
Definition Second : Z := 1000000000.

(** Two's complement wrap-around of a 64-bit signed integer. *)
Definition wrap64 (z : Z) : Z := (z + 2 ^ 63) mod 2 ^ 64 - 2 ^ 63.

(** ** The Pub/Sub client *)

Module pubsub.

(** [pubsub.SubscriptionConfig]; the fields of struct and pointer type
    other than [Topic] (push configuration, labels, dead-letter and retry
    policies) are left at their zero value and not represented. *)
Record SubscriptionConfig := {
  Topic : option string;
  AckDeadline : Z;
  RetainAckedMessages : bool;
  RetentionDuration : Z;
  ExpirationPolicy : dynamic;
  EnableMessageOrdering : bool;
  Filter : string;
  Detached : bool
}.

(** [pubsub.SubscriptionConfig{}] *)
Definition zero : SubscriptionConfig := {|
  Topic := None; AckDeadline := 0; RetainAckedMessages := false;
  RetentionDuration := 0; ExpirationPolicy := Nil;
  EnableMessageOrdering := false; Filter := ""; Detached := false |}.

Definition with_Topic (cfg : SubscriptionConfig) (t : string) : SubscriptionConfig := {|
  Topic := Some t; AckDeadline := AckDeadline cfg;
  RetainAckedMessages := RetainAckedMessages cfg;
  RetentionDuration := RetentionDuration cfg;
  ExpirationPolicy := ExpirationPolicy cfg;
  EnableMessageOrdering := EnableMessageOrdering cfg;
  Filter := Filter cfg; Detached := Detached cfg |}.

Definition with_ExpirationPolicy (cfg : SubscriptionConfig) (p : dynamic) : SubscriptionConfig := {|
  Topic := Topic cfg; AckDeadline := AckDeadline cfg;
  RetainAckedMessages := RetainAckedMessages cfg;
  RetentionDuration := RetentionDuration cfg;
  ExpirationPolicy := p;
  EnableMessageOrdering := EnableMessageOrdering cfg;
  Filter := Filter cfg; Detached := Detached cfg |}.

(** [pubsub.Message], the fields the receive callback prints. *)
Record Message := {
  ID : string;
  Data : string;
  PublishTime : Z;
  DeliveryAttempt : option Z;
  OrderingKey : string;
  Attributes : list (string * string)
}.

End pubsub.

(** ** Observable actions *)

(** The two contexts of the programs: [context.Background()] and the
    context of the run ([ctx] in the listener), which is cancelled by the
    interrupt handler or by its deadline. *)
Inductive context := Background | RunCtx.

(** The requests sent to the service. *)
Inductive rpc :=
| CreateTopic (name : string)
| DeleteTopic (name : string)
| Publish (topic data : string)
| CreateSubscription (id : string) (cfg : pubsub.SubscriptionConfig)
| DeleteSubscription (id : string)
| ListTopics
| ListSubscriptions.

(** An operand of a log format. *)
Inductive arg :=
| AStr (s : string)
| AErr (e : error)
| ACode (c : code)
| ANat (n : nat)
| ADyn (d : dynamic)
| ACfg (cfg : pubsub.SubscriptionConfig)
| AMsg (m : pubsub.Message).

Inductive event :=
| Usage                                   (* flag.Usage() *)
| Help                                    (* the help text on stderr *)
| Logged (format : string) (args : list arg)   (* log.Printf, Println, Fatalf *)
| Printed (line : string)                 (* fmt.Println *)
| Called (ctx : context) (op : rpc) (failure : option error)
| TopicStopped (name : string)            (* t.Stop() on a topic *)
| CronAdded (spec : string)               (* a successful c.AddFunc *)
| CronStarted                             (* c.Start() *)
| CronStopped                             (* c.Stop() *)
| Spawned (id : string)                   (* wg.Add(1); go s.Receive(...) *)
| Acked (id : string)                     (* m.Ack() *)
| SignalNotify                            (* signal.Notify(ch, os.Interrupt) *)
| SignalStop                              (* signal.Stop(ch) *)
| Closed.                                 (* the deferred client.Close(), f.Close() *)

(** ** The world outside the process *)

(** The state of the project on the message bus, and of the run context. *)
Record world := World {
  bus_topics : gset string;          (* the topics of the project *)
  bus_subs : gmap string string;     (* subscription id ↦ topic *)
  rpcs : nat;                        (* requests sent so far *)
  next_id : nat;                     (* next message id the bus assigns *)
  run_done : bool                    (* RunCtx is cancelled or past its deadline *)
}.

(** What an iterator's [Next] returns, call after call, until
    [iterator.Done]: the iterator is taken to reach [Done]. *)
Definition iteration := list (error + string).

(** The choices of the environment: everything the source does not
    determine. *)
Record env := Env {
  rpc_fault : nat -> option error;   (* the transport fails the n-th request *)
  new_client : string -> option error;        (* pubsub.NewClient *)
  topics_iter : gset string -> iteration;     (* client.Topics, given the topics *)
  subs_iter : gmap string string -> iteration;  (* client.Subscriptions *)
  cron_parse : string -> option error;        (* the cron parser's verdict on a spec *)
  ParseDuration : string -> error + Z;        (* time.ParseDuration *)
  firings : list nat;          (* the cron entries that come due, in order *)
  deliveries : list (string * pubsub.Message);  (* messages handed to receivers *)
  receive_error : string -> option error;     (* a receive loop that ends on its own *)
  interrupt : bool                            (* os.Interrupt arrives *)
}.

(** ** The monad of the programs *)

Inductive outcome (A : Type) :=
| Return (a : A)            (* the computation went through *)
| Exit (status : Z)         (* os.Exit, log.Fatalf *)
| Forever.                  (* blocked for good *)
Arguments Return {A} a.
Arguments Exit {A} status.
Arguments Forever {A}.

Record result (A : Type) := Result {
  out : outcome A;
  final : world;
  events : list event
}.
Arguments Result {A} out final events.
Arguments out {A} r.
Arguments final {A} r.
Arguments events {A} r.

Definition M (A : Type) : Type := world -> result A.

Definition ret {A} (a : A) : M A := fun w => Result (Return a) w [].

(** The actions [evs], then what [r] tells. *)
Definition prepend {A} (evs : list event) (r : result A) : result A :=
  Result (out r) (final r) (evs ++ events r).

Definition bind {A B} (m : M A) (k : A -> M B) : M B := fun w =>
  let r := m w in
  match out r with
  | Return a => prepend (events r) (k a (final r))
  | Exit s => Result (Exit s) (final r) (events r)
  | Forever => Result Forever (final r) (events r)
  end.

Declare Scope prog_scope.
Delimit Scope prog_scope with prog.
Notation "x <- m ;; k" := (bind m (fun x => k))
  (at level 100, m at next level, right associativity) : prog_scope.
Notation "m ;; k" := (bind m (fun _ => k))
  (at level 100, right associativity) : prog_scope.
Local Open Scope prog_scope.

Definition emit (e : event) : M unit := fun w => Result (Return tt) w [e].

Definition os_Exit {A} (status : Z) : M A := fun w => Result (Exit status) w [].

Definition block {A} : M A := fun w => Result Forever w [].

Definition logf (format : string) (args : list arg) : M unit :=
  emit (Logged format args).

(** [log.Fatalf] is [log.Printf] followed by [os.Exit(1)]. *)
Definition log_Fatalf {A} (format : string) (args : list arg) : M A :=
  logf format args ;; os_Exit 1.

(** ** The service *)

Definition with_topics (ts : gset string) (w : world) : world :=
  World ts (bus_subs w) (rpcs w) (next_id w) (run_done w).
Definition with_subs (ss : gmap string string) (w : world) : world :=
  World (bus_topics w) ss (rpcs w) (next_id w) (run_done w).
Definition with_run_done (b : bool) (w : world) : world :=
  World (bus_topics w) (bus_subs w) (rpcs w) (next_id w) b.
Definition counted (w : world) : world :=
  World (bus_topics w) (bus_subs w) (S (rpcs w)) (next_id w) (run_done w).
Definition stamped (w : world) : world :=
  World (bus_topics w) (bus_subs w) (rpcs w) (S (next_id w)) (run_done w).

(** What the service does with a request that reaches it. *)
Definition serve (op : rpc) (w : world) : option error * world :=
  match op with
  | CreateTopic name =>
      if decide (name ∈ bus_topics w) then (Some (EStatus AlreadyExists), w)
      else (None, with_topics ({[name]} ∪ bus_topics w) w)
  | DeleteTopic name =>
      if decide (name ∈ bus_topics w)
      then (None, with_topics (bus_topics w ∖ {[name]}) w)
      else (Some (EStatus NotFound), w)
  | Publish topic _ =>
      if decide (topic ∈ bus_topics w) then (None, stamped w)
      else (Some (EStatus NotFound), w)
  | CreateSubscription id cfg =>
      match bus_subs w !! id, pubsub.Topic cfg with
      | Some _, _ => (Some (EStatus AlreadyExists), w)
      | None, Some t =>
          if decide (t ∈ bus_topics w) then (None, with_subs (<[id := t]> (bus_subs w)) w)
          else (Some (EStatus NotFound), w)
      | None, None => (Some (EStatus InvalidArgument), w)
      end
  | DeleteSubscription id =>
      match bus_subs w !! id with
      | Some _ => (None, with_subs (delete id (bus_subs w)) w)
      | None => (Some (EStatus NotFound), w)
      end
  | ListTopics | ListSubscriptions => (None, w)
  end.

(** A context that is done fails the calls made under it. *)
Definition expired (ctx : context) (w : world) : bool :=
  match ctx with
  | Background => false
  | RunCtx => run_done w
  end.

Section Client.

Variable E : env.

(** The answer to one request: refused when its context is done, lost
    when the transport fails it, served otherwise. *)
Definition answer (ctx : context) (op : rpc) (w : world) : option error * world :=
  if expired ctx w then (Some (EStatus Canceled), counted w)
  else match rpc_fault E (rpcs w) with
       | Some err => (Some err, counted w)
       | None => serve op (counted w)
       end.

Definition request (ctx : context) (op : rpc) : M (option error) := fun w =>
  Result (Return (answer ctx op w).1) (answer ctx op w).2
         [Called ctx op (answer ctx op w).1].

(** [client.CreateTopic(ctx, name)]; the handle is the topic's name. *)
Definition client_CreateTopic (ctx : context) (name : string) : M (error + string) :=
  failure <- request ctx (CreateTopic name) ;;
  ret (match failure with Some err => inl err | None => inr name end).

(** [t.Delete(ctx)] *)
Definition topic_Delete (ctx : context) (t : string) : M (option error) :=
  request ctx (DeleteTopic t).

(** [t.Stop()]: the topic's publishing goroutines are stopped; nothing
    is sent to the service. *)
Definition topic_Stop (t : string) : M unit := emit (TopicStopped t).

(** [t.Publish(ctx, msg)] followed by [res.Get(ctx)]: the id the service
    gave the message, or the failure. *)
Definition topic_Publish (ctx : context) (t data : string) : M (error + nat) := fun w =>
  (failure <- request ctx (Publish t data) ;;
   ret (match failure with Some err => inl err | None => inr (next_id w) end)) w.

(** [client.CreateSubscription(ctx, id, cfg)] *)
Definition client_CreateSubscription (ctx : context) (id : string)
    (cfg : pubsub.SubscriptionConfig) : M (option error) :=
  request ctx (CreateSubscription id cfg).

(** [s.Delete(ctx)] *)
Definition subscription_Delete (ctx : context) (s : string) : M (option error) :=
  request ctx (DeleteSubscription s).

(** [client.Topics(ctx)] *)
Definition client_Topics (ctx : context) : M iteration := fun w =>
  Result (Return (if expired ctx w then [inl (EStatus Canceled)]
                  else topics_iter E (bus_topics w)))
         w [Called ctx ListTopics None].

(** [client.Subscriptions(ctx)] *)
Definition client_Subscriptions (ctx : context) : M iteration := fun w =>
  Result (Return (if expired ctx w then [inl (EStatus Canceled)]
                  else subs_iter E (bus_subs w)))
         w [Called ctx ListSubscriptions None].

End Client.

(** ** Strings *)

(** [strings.ToLower] on the ASCII letters.  The programs compare its
    result with an ASCII literal only, and no byte outside ASCII is mapped
    to an ASCII letter of that literal. *)
Definition lower (c : ascii) : ascii :=
  let n := nat_of_ascii c in
  if (65 <=? n)%nat && (n <=? 90)%nat then ascii_of_nat (n + 32) else c.

Fixpoint ToLower (s : string) : string :=
  match s with
  | EmptyString => EmptyString
  | String c s' => String (lower c) (ToLower s')
  end.

(** The file named by [-conf], as [os.Open] and the YAML decoder see it. *)
Inductive file (C : Type) :=
| Unreadable (err : error)
| Malformed (err : error)
| Decoded (cfg : C).
Arguments Unreadable {C} err.
Arguments Malformed {C} err.
Arguments Decoded {C} cfg.

(** The command line flags. *)
Record flags := {
  conf : string;
  duration : Z;      (* -timeout, in nanoseconds *)
  help : bool
}.

(** ** The scheduler *)

Module Scheduler.

Record target := {
  Destination : string;   (* Currently only supports Pub/Sub. *)
  Topic : string
}.

Record job := {
  Name : string;
  Description : string;
  Frequency : string;
  Timezone : string;      (* Local if empty. *)
  Target : target;
  Payload : string
}.

Record config := {
  Project : string;
  Jobs : list job
}.

(** An entry of the cron table: the spec handed to [c.AddFunc] and the
    variables [j] and [t] its function closes over. *)
Record entry := {
  spec : string;
  entry_job : job;
  entry_topic : string
}.

(** [strings.ToLower(j.Target.Destination) != "pub/sub"], negated. *)
Definition is_pubsub (j : job) : bool :=
  String.eqb (ToLower (Destination (Target j))) "pub/sub".

(** The spec of a job: its frequency, behind a [CRON_TZ=] prefix when
    it names a time zone. *)
Definition cronspec (j : job) : string :=
  if String.eqb (Timezone j) "" then Frequency j
  else "CRON_TZ=" +:+ Timezone j +:+ " " +:+ Frequency j.

Section Program.

Variable E : env.

(** The function registered for a job. *)
Definition publish (j : job) (t : string) : M unit :=
  r <- topic_Publish E Background t (Payload j) ;;
  match r with
  | inl err => logf "failed to publish %q: %v" [AStr (Name j); AErr err]
  | inr id => logf "published %q id=%s" [AStr (Name j); ANat id]
  end.

(** [for _, t := range topics { t.Stop() }] *)
Fixpoint stop_topics (topics : list string) : M unit :=
  match topics with
  | [] => ret tt
  | t :: rest => topic_Stop t ;; stop_topics rest
  end.

(** [for _, j := range cfg.Jobs { ... }]: the topics and the cron
    table built so far are the loop's state. *)
Fixpoint add_jobs (jobs : list job) (topics : list string) (c : list entry)
    : M (list string * list entry) :=
  match jobs with
  | [] => ret (topics, c)
  | j :: rest =>
      if negb (is_pubsub j) then add_jobs rest topics c
      else
        r <- client_CreateTopic E Background (Topic (Target j)) ;;
        match r with
        | inl err =>
            logf "failed to publish topic %q: %v" [AStr (Topic (Target j)); AErr err] ;;
            (* Clean-up and exit with a failure. *)
            stop_topics topics ;;
            os_Exit 1
        | inr t =>
            match cron_parse E (cronspec j) with
            | Some err =>
                logf "error in cronspec for %q: %v" [AStr (Name j); AErr err] ;;
                stop_topics topics ;;
                os_Exit 1
            | None =>
                emit (CronAdded (cronspec j)) ;;
                add_jobs rest (topics ++ [t]) (c ++ [Build_entry (cronspec j) j t])
            end
        end
  end.

(** The cron engine between [c.Start()] and [c.Stop()]: the entries
    that come due run their function. *)
Definition fire (c : list entry) (i : nat) : M unit :=
  match c !! i with
  | Some e => publish (entry_job e) (entry_topic e)
  | None => ret tt
  end.

Fixpoint run (c : list entry) (due : list nat) : M unit :=
  match due with
  | [] => ret tt
  | i :: rest => fire c i ;; run c rest
  end.

(** [select { case <-ch: case <-timeout: }]: without an interrupt and
    without a timer the select never returns. *)
Definition await (a : flags) : M unit :=
  if interrupt E then ret tt
  else if duration a =? 0 then block
  else ret tt.

(** Delete pub topics. *)
Fixpoint delete_topics (topics : list string) : M unit :=
  match topics with
  | [] => ret tt
  | t :: rest =>
      logf "deleting %v" [AStr t] ;;
      failure <- topic_Delete E Background t ;;
      match failure with
      | Some err => log_Fatalf "failed to delete topic: %v" [AErr err]
      | None => delete_topics rest
      end
  end.

Definition main (a : flags) (f : file config) : M unit :=
  if help a then emit Usage ;; emit Help ;; os_Exit 0
  else if String.eqb (conf a) "" then emit Usage ;; os_Exit 2
  else
    match f with
    | Unreadable err => log_Fatalf "failed to read schedule config: %v" [AErr err]
    | Malformed err => log_Fatalf "failed to parse schedule config: %v" [AErr err]
    | Decoded cfg =>
        match new_client E (Project cfg) with
        | Some err => log_Fatalf "failed to create pubsub client: %v" [AErr err]
        | None =>
            tc <- add_jobs (Jobs cfg) [] [] ;;
            (* Handle interrupt signal. *)
            emit SignalNotify ;;
            (* Start cron. *)
            emit CronStarted ;;
            run tc.2 (firings E) ;;
            (* Wait for cancellation or timeout. *)
            await a ;;
            emit (Printed "cancelling") ;;
            (* Stop cron. *)
            emit CronStopped ;;
            delete_topics tc.1 ;;
            (* Release signal. *)
            emit SignalStop ;;
            emit Closed
        end
    end.

End Program.

End Scheduler.

(** ** The listener *)

Module Listener.

Record subscription := {
  Topic : string;
  ID : string;
  Config : pubsub.SubscriptionConfig
}.

Record config := {
  Project : string;
  Subscriptions : list subscription;
  DefaultConfig : pubsub.SubscriptionConfig
}.

(** [reflect.DeepEqual(cfg, pubsub.SubscriptionConfig{})] *)
Definition isEmptyConfig (cfg : pubsub.SubscriptionConfig) : bool :=
  match pubsub.Topic cfg, pubsub.ExpirationPolicy cfg with
  | None, Nil =>
      (pubsub.AckDeadline cfg =? 0)
      && negb (pubsub.RetainAckedMessages cfg)
      && (pubsub.RetentionDuration cfg =? 0)
      && negb (pubsub.EnableMessageOrdering cfg)
      && String.eqb (pubsub.Filter cfg) ""
      && negb (pubsub.Detached cfg)
  | _, _ => false
  end.

Definition with_policy (sub : subscription) (p : dynamic) : subscription :=
  {| Topic := Topic sub; ID := ID sub;
     Config := pubsub.with_ExpirationPolicy (Config sub) p |}.

Section Program.

Variable E : env.

(** The type switch on [subs.Config.ExpirationPolicy]: the value the
    field holds afterwards. *)
Definition normalize (exp : dynamic) : M dynamic :=
  match exp with
  | Nil =>
      (* Do nothing. *)
      ret Nil
  | Str exp =>
      match ParseDuration E exp with
      | inl err => log_Fatalf "failed to parse subscription config: %v" [AErr err]
      | inr d => ret (Duration d)
      end
  | Int exp => ret (Duration (wrap64 (exp * Second)))
  | exp =>
      log_Fatalf "failed to parse subscription config: %v is not valid expiration policy"
        [ADyn exp]
  end.

(** [for i, subs := range cfg.Subscriptions { ... }] *)
Fixpoint normalize_all (subs : list subscription) : M (list subscription) :=
  match subs with
  | [] => ret []
  | sub :: rest =>
      p <- normalize (pubsub.ExpirationPolicy (Config sub)) ;;
      rest' <- normalize_all rest ;;
      ret (with_policy sub p :: rest')
  end.

(** The loop over [topit.Next()]. *)
Fixpoint enumerate (all : bool) (topit : iteration) (subs : list subscription)
    : M (list subscription) :=
  match topit with
  | [] => ret subs
  | inl err :: _ => log_Fatalf "error during topic enumeration: %v" [AErr err]
  | inr id :: rest =>
      logf "%v\n" [AStr id] ;;
      if all then
        logf "adding %v\n" [AStr id] ;;
        enumerate all rest (subs ++ [{| Topic := id; ID := id; Config := pubsub.zero |}])
      else enumerate all rest subs
  end.

(** The loop over [it.Next()] of [deleteAllSubscriptions].  The iteration
    is the sequence of the results [it.Next()] gives before
    [iterator.Done].  After an error the loop calls [it.Next()] again: an
    iterator that goes on failing, with which the loop of the source does
    not end, has no iteration here. *)
Fixpoint delete_each (it : iteration) : M unit :=
  match it with
  | [] => ret tt
  | inl err :: rest =>
      logf "error during subscription clean up: %v" [AErr err] ;;
      delete_each rest
  | inr s :: rest =>
      failure <- subscription_Delete E Background s ;;
      match failure with
      | Some err => logf "failed to delete subscription %q: %v" [AStr s; AErr err]
      | None => ret tt
      end ;;
      delete_each rest
  end.

Definition deleteAllSubscriptions : M unit :=
  it <- client_Subscriptions E Background ;;
  delete_each it.

(** The configuration a subscription is created with. *)
Definition subConfig (cfg : config) (sub : subscription) : pubsub.SubscriptionConfig :=
  pubsub.with_Topic
    (if isEmptyConfig (Config sub) then DefaultConfig cfg else Config sub)
    (Topic sub).

(** [for _, sub := range cfg.Subscriptions { ... }]: the loop's state
    is the subscriptions a receiver was started for. *)
Fixpoint subscribe_all (cfg : config) (subs started : list subscription)
    : M (list subscription) :=
  match subs with
  | [] => ret started
  | sub :: rest =>
      logf "subscribing to %q as %q\n" [AStr (Topic sub); AStr (ID sub)] ;;
      (if isEmptyConfig (Config sub)
       then logf "using default config: %v" [ACfg (DefaultConfig cfg)]
       else ret tt) ;;
      failure <- client_CreateSubscription E RunCtx (ID sub) (subConfig cfg sub) ;;
      match failure with
      | Some err =>
          if decide (grpc_Code err = AlreadyExists) then
            logf "subscription %q already exists" [AStr (Topic sub)] ;;
            subscribe_all cfg rest started
          else
            logf "failed to create subscription %q %q: %#v (%v)"
              [AStr (Topic sub); AStr (ID sub); AErr err; ACode (grpc_Code err)] ;;
            deleteAllSubscriptions ;;
            os_Exit 1
      | None =>
          emit (Spawned (ID sub)) ;;
          subscribe_all cfg rest (started ++ [sub])
      end
  end.

(** The receive callback, for the messages the started receivers get. *)
Fixpoint receive (started : list subscription) (ms : list (string * pubsub.Message))
    : M unit :=
  match ms with
  | [] => ret tt
  | (id, m) :: rest =>
      (if bool_decide (id ∈ ID <$> started)
       then logf "received: %s %q [published:%v attempt:%v key:%q attr:%v]" [AMsg m] ;;
            emit (Acked (pubsub.ID m))
       else ret tt) ;;
      receive started rest
  end.

(** The receivers that return with an error before the run is over. *)
Fixpoint report (started : list subscription) : M unit :=
  match started with
  | [] => ret tt
  | sub :: rest =>
      match receive_error E (ID sub) with
      | Some err =>
          if decide (err = EContextCanceled) then ret tt
          else logf "failed to receive for %q %q: %v" [AStr (Topic sub); AStr (ID sub); AErr err]
      | None => ret tt
      end ;;
      report rest
  end.

Definition live (started : list subscription) : list subscription :=
  filter (fun sub => receive_error E (ID sub) = None) started.

(** [wg.Wait()], next to the goroutine that cancels the run on an
    interrupt or when the context is done.  The receivers that are
    still running return once the run context is done; without an
    interrupt and without a deadline they never do. *)
Definition wait (a : flags) (started : list subscription) : M unit := fun w =>
  match live started with
  | [] => ret tt w
  | _ =>
      if run_done w then ret tt w
      else if interrupt E || negb (duration a =? 0)
      then Result (Return tt) (with_run_done true w) []
      else block w
  end.

Definition main (a : flags) (f : file config) : M unit :=
  if help a then emit Usage ;; emit Help ;; os_Exit 0
  else if String.eqb (conf a) "" then emit Usage ;; os_Exit 2
  else
    match f with
    | Unreadable err => log_Fatalf "failed to read schedule config: %v" [AErr err]
    | Malformed err => log_Fatalf "failed to parse schedule config: %v" [AErr err]
    | Decoded cfg =>
        subs <- normalize_all (Subscriptions cfg) ;;
        match new_client E (Project cfg) with
        | Some err => log_Fatalf "failed to create pubsub client: %v" [AErr err]
        | None =>
            logf "available topics:" [] ;;
            let all := bool_decide (length subs = 0%nat) in
            topit <- client_Topics E RunCtx ;;
            subs <- enumerate all topit subs ;;
            if bool_decide (length subs = 0%nat) then
              logf "no available subscriptions" [] ;;
              os_Exit 0
            else
              started <- subscribe_all cfg subs [] ;;
              (* Handle interrupt signal. *)
              emit SignalNotify ;;
              (* Wait for cancellation or timeout. *)
              receive started (deliveries E) ;;
              report started ;;
              wait a started ;;
              emit (Printed "cancelling") ;;
              deleteAllSubscriptions ;;
              (* Release signal. *)
              emit SignalStop ;;
              emit Closed
        end
    end.

End Program.

End Listener.

(** ** Reading a run *)

(** The subscriptions whose deletion was requested, in order. *)
Fixpoint deleted_subscriptions (evs : list event) : list string :=
  match evs with
  | [] => []
  | Called _ (DeleteSubscription id) _ :: rest => id :: deleted_subscriptions rest
  | _ :: rest => deleted_subscriptions rest
  end.

(** The topics whose deletion was requested, in order. *)
Fixpoint deleted_topics (evs : list event) : list string :=
  match evs with
  | [] => []
  | Called _ (DeleteTopic name) _ :: rest => name :: deleted_topics rest
  | _ :: rest => deleted_topics rest
  end.

(** The topics the service created for this process, in order. *)
Fixpoint created_topics (evs : list event) : list string :=
  match evs with
  | [] => []
  | Called _ (CreateTopic name) None :: rest => name :: created_topics rest
  | _ :: rest => created_topics rest
  end.

(** The topics [Stop] was called on, in order. *)
Fixpoint stopped_topics (evs : list event) : list string :=
  match evs with
  | [] => []
  | TopicStopped name :: rest => name :: stopped_topics rest
  | _ :: rest => stopped_topics rest
  end.

(** The specs the cron table accepted, in order. *)
Fixpoint cron_entries (evs : list event) : list string :=
  match evs with
  | [] => []
  | CronAdded spec :: rest => spec :: cron_entries rest
  | _ :: rest => cron_entries rest
  end.

(** The subscriptions whose creation was requested, with the
    configuration of the request, in order. *)
Fixpoint requested_subscriptions (evs : list event)
    : list (string * pubsub.SubscriptionConfig) :=
  match evs with
  | [] => []
  | Called _ (CreateSubscription id cfg) _ :: rest => (id, cfg) :: requested_subscriptions rest
  | _ :: rest => requested_subscriptions rest
  end.

(** A request to create a subscription. *)
Definition is_create_subscription (e : event) : bool :=
  match e with
  | Called _ (CreateSubscription _ _) _ => true
  | _ => false
  end.

(** The subscription the listener makes up for a topic. *)
Definition synthesized (id : string) : Listener.subscription :=
  {| Listener.Topic := id; Listener.ID := id; Listener.Config := pubsub.zero |}.

(** What the listener writes while it adds the topics it is told of. *)
Definition adding (ids : list string) : list event :=
  ids ≫= fun id => [Logged "%v\n" [AStr id]; Logged "adding %v\n" [AStr id]].

(** What the loop writes for a subscription before it looks at the
    answer of the service. *)
Definition subscribing (cfg : Listener.config) (sub : Listener.subscription)
    (failure : option error) : list event :=
  Logged "subscribing to %q as %q\n" [AStr (Listener.Topic sub); AStr (Listener.ID sub)]
  :: (if Listener.isEmptyConfig (Listener.Config sub)
      then [Logged "using default config: %v" [ACfg (Listener.DefaultConfig cfg)]]
      else [])
  ++ [Called RunCtx (CreateSubscription (Listener.ID sub) (Listener.subConfig cfg sub)) failure].


(** A publication, that is, a cron entry that fired. *)
Definition is_publish (e : event) : bool :=
  match e with
  | Called _ (Publish _ _) _ => true
  | _ => false
  end.

(** What the scheduler does before it starts the cron engine: topic
    creations, log lines, [Stop] on a topic, entries added to the table. *)
Definition startup_event (e : event) : bool :=
  match e with
  | Called Background (CreateTopic _) _ | Logged _ _ | TopicStopped _ | CronAdded _ => true
  | _ => false
  end.

(** A request to create a topic. *)
Definition is_create_topic (e : event) : bool :=
  match e with
  | Called _ (CreateTopic _) _ => true
  | _ => false
  end.

(** The report of a spec the cron parser refused. *)
Definition is_cronspec_error (e : event) : bool :=
  match e with
  | Logged format _ => String.eqb format "error in cronspec for %q: %v"
  | _ => false
  end.


(** The jobs for the message bus, and the others. *)
Definition bus_jobs (jobs : list Scheduler.job) : list Scheduler.job :=
  List.filter Scheduler.is_pubsub jobs.

Definition other_jobs (jobs : list Scheduler.job) : list Scheduler.job :=
  List.filter (fun j => negb (Scheduler.is_pubsub j)) jobs.

(** The topic of a job and the entry [c.AddFunc] makes for it. *)
Definition job_topic (j : Scheduler.job) : string := Scheduler.Topic (Scheduler.Target j).

Definition job_entry (j : Scheduler.job) : Scheduler.entry :=
  Scheduler.Build_entry (Scheduler.cronspec j) j (Scheduler.Topic (Scheduler.Target j)).

(** The subscriptions a receiver was started for, in order. *)
Fixpoint spawned (evs : list event) : list string :=
  match evs with
  | [] => []
  | Spawned id :: rest => id :: spawned rest
  | _ :: rest => spawned rest
  end.

(** The subscriptions the service created for this process, in order. *)
Fixpoint created_subscriptions (evs : list event) : list string :=
  match evs with
  | [] => []
  | Called _ (CreateSubscription id _) None :: rest => id :: created_subscriptions rest
  | _ :: rest => created_subscriptions rest
  end.

(** The publications requested, in order: the topic and the data. *)
Fixpoint publications (evs : list event) : list (string * string) :=
  match evs with
  | [] => []
  | Called _ (Publish topic data) _ :: rest => (topic, data) :: publications rest
  | _ :: rest => publications rest
  end.

(** What a run of the scheduler may do: its requests are creations and
    deletions of topics and publications, under the background context. *)
Definition scheduler_event (e : event) : bool :=
  match e with
  | Called Background (CreateTopic _ | DeleteTopic _ | Publish _ _) _ => true
  | Called _ _ _ => false
  | Spawned _ | Acked _ => false
  | _ => true
  end.

(** What a run of the listener may do: its requests are the listing of
    topics and the creation of subscriptions under the context of the run,
    and the listing and the deletion of subscriptions under the background
    context. *)
Definition listener_event (e : event) : bool :=
  match e with
  | Called RunCtx (ListTopics | CreateSubscription _ _) _ => true
  | Called Background (ListSubscriptions | DeleteSubscription _) _ => true
  | Called _ _ _ => false
  | TopicStopped _ | CronAdded _ | CronStarted | CronStopped => false
  | _ => true
  end.


(** What the listener may do once its receivers are started. *)
Definition late_event (e : event) : bool :=
  match e with
  | Called Background (ListSubscriptions | DeleteSubscription _) _ => true
  | Logged _ _ | Printed _ | Acked _ | SignalNotify | SignalStop | Closed => true
  | _ => false
  end.

(** What the scheduler may do once the cron engine is started. *)
Definition running_event (e : event) : bool :=
  match e with
  | Called Background (DeleteTopic _ | Publish _ _) _ => true
  | Logged _ _ | Printed _ | CronStarted | CronStopped | SignalNotify | SignalStop
  | Closed => true
  | _ => false
  end.

(** The exit statuses of the programs. *)
Definition expected_outcome (o : outcome unit) : Prop :=
  o = Return tt \/ o = Forever \/ o = Exit 0 \/ o = Exit 1 \/ o = Exit 2.

(** What the entries of the cron table that come due have to publish: the
    topic of each and the payload of its job.  A number that is no entry of
    the table stands for no firing. *)
Fixpoint fired (c : list Scheduler.entry) (due : list nat) : list (string * string) :=
  match due with
  | [] => []
  | i :: rest =>
      match c !! i with
      | Some e =>
          (Scheduler.entry_topic e, Scheduler.Payload (Scheduler.entry_job e)) :: fired c rest
      | None => fired c rest
      end
  end.

(** The names an iteration yields. *)
Definition items (it : iteration) : list string :=
  omap (fun r => match r with
                 | inr s => Some s
                 | inl _ => None
                 end) it.

(** An iteration that fails nowhere and lists exactly the given names,
    each once. *)
Definition faithful (it : iteration) (names : gset string) : Prop :=
  exists l, it = inr <$> l /\ NoDup l /\ forall x, x ∈ l <-> x ∈ names.

(** The transport loses no request from the state [w] on. *)
Definition reliable_from (E : env) (w : world) : Prop :=
  forall n, (rpcs w <= n)%nat -> rpc_fault E n = None.

(** An environment without surprises: it lists what is there, it accepts
    the specs other than ["bad"], it knows one duration; the interrupt
    arrives. *)
Definition calm : env := {|
  rpc_fault := fun _ => None;
  new_client := fun _ => None;
  topics_iter := fun s => inr <$> elements s;
  subs_iter := fun m => inr <$> (map_to_list m).*1;
  cron_parse := fun s => if String.eqb s "bad" then Some (EOther "bad spec") else None;
  ParseDuration := fun s => if String.eqb s "1h" then inr 3600000000000
                            else inl (EOther "invalid duration");
  firings := [];
  deliveries := [];
  receive_error := fun _ => None;
  interrupt := true |}.

(** The same environment with a transport that fails the [k]-th request. *)
Definition failing (k : nat) (err : error) : env := {|
  rpc_fault := fun n => if decide (n = k) then Some err else None;
  new_client := new_client calm;
  topics_iter := topics_iter calm;
  subs_iter := subs_iter calm;
  cron_parse := cron_parse calm;
  ParseDuration := ParseDuration calm;
  firings := firings calm;
  deliveries := deliveries calm;
  receive_error := receive_error calm;
  interrupt := interrupt calm |}.

(** ** Sample inputs *)

(** An empty project. *)
Definition empty_project : world := World ∅ ∅ 0 1 false.

(** A project with the topic ["a"] and a subscription ["s"] to it. *)
Definition taken_project : world := World {["a"]} {["s" := "a"]} 0 1 false.

(** A listener configuration that asks for that subscription. *)
Definition one_subscription : Listener.config := {|
  Listener.Project := "p";
  Listener.Subscriptions :=
    [{| Listener.Topic := "a"; Listener.ID := "s"; Listener.Config := pubsub.zero |}];
  Listener.DefaultConfig := pubsub.zero |}.

(** A project with the topics ["a"] and ["b"] and no subscription. *)
Definition two_topics : world := World {["a"; "b"]} ∅ 0 1 false.

(** A listener configuration without subscriptions. *)
Definition no_subscriptions : Listener.config := {|
  Listener.Project := "p";
  Listener.Subscriptions := [];
  Listener.DefaultConfig := pubsub.zero |}.

(** [-conf f.yaml], no timeout. *)
Definition plain : flags := {| conf := "f.yaml"; duration := 0; help := false |}.

(** A job for the message bus. *)
Definition bus_job (name topic frequency : string) : Scheduler.job := {|
  Scheduler.Name := name;
  Scheduler.Description := "";
  Scheduler.Frequency := frequency;
  Scheduler.Timezone := "";
  Scheduler.Target := {| Scheduler.Destination := "Pub/Sub"; Scheduler.Topic := topic |};
  Scheduler.Payload := "hello cron!" |}.

(** A job for another kind of target. *)
Definition http_job (name : string) : Scheduler.job := {|
  Scheduler.Name := name;
  Scheduler.Description := "";
  Scheduler.Frequency := "* * * * *";
  Scheduler.Timezone := "";
  Scheduler.Target := {| Scheduler.Destination := "HTTP"; Scheduler.Topic := "" |};
  Scheduler.Payload := "" |}.

Definition two_jobs : Scheduler.config := {|
  Scheduler.Project := "p";
  Scheduler.Jobs := [bus_job "one" "t1" "* * * * *"; bus_job "two" "t2" "* * * * *"] |}.

Definition three_jobs : Scheduler.config := {|
  Scheduler.Project := "p";
  Scheduler.Jobs := [bus_job "one" "t1" "* * * * *"; bus_job "two" "t2" "* * * * *";
                     bus_job "three" "t3" "* * * * *"] |}.

(** The configuration of the README. *)
Definition quickstart : Scheduler.config := {|
  Scheduler.Project := "testing";
  Scheduler.Jobs :=
    [{| Scheduler.Name := "Hello world!";
        Scheduler.Description := "Job from scheduler Quickstart";
        Scheduler.Frequency := "* * * * *";
        Scheduler.Timezone := "America/Los_Angeles";
        Scheduler.Target := {| Scheduler.Destination := "Pub/Sub";
                               Scheduler.Topic := "cron-job" |};
        Scheduler.Payload := "hello cron!" |}] |}.

(** The calm environment in which the first cron entry comes due three
    times before the interrupt. *)
Definition ticking : env := {|
  rpc_fault := rpc_fault calm;
  new_client := new_client calm;
  topics_iter := topics_iter calm;
  subs_iter := subs_iter calm;
  cron_parse := cron_parse calm;
  ParseDuration := ParseDuration calm;
  firings := [0; 0; 0]%nat;
  deliveries := deliveries calm;
  receive_error := receive_error calm;
  interrupt := interrupt calm |}.

(** A listener configuration with a subscription to a topic that is not
    there. *)
Definition missing_topic : Listener.config := {|
  Listener.Project := "p";
  Listener.Subscriptions :=
    [{| Listener.Topic := "zz"; Listener.ID := "z"; Listener.Config := pubsub.zero |}];
  Listener.DefaultConfig := pubsub.zero |}.

(** The calm environment without the interrupt. *)
Definition undisturbed : env := {|
  rpc_fault := rpc_fault calm;
  new_client := new_client calm;
  topics_iter := topics_iter calm;
  subs_iter := subs_iter calm;
  cron_parse := cron_parse calm;
  ParseDuration := ParseDuration calm;
  firings := firings calm;
  deliveries := deliveries calm;
  receive_error := receive_error calm;
  interrupt := false |}.



(** A run that ends after one minute. *)
Definition one_minute : flags := {| conf := "f.yaml"; duration := 60000000000; help := false |}.

(** Two jobs for the bus that name the same topic. *)
Definition shared_topic : Scheduler.config := {|
  Scheduler.Project := "p";
  Scheduler.Jobs := [bus_job "one" "t1" "* * * * *"; bus_job "two" "t1" "* * * * *"] |}.

(** A listener configuration with a subscription whose policy is a string
    and one whose policy is a number of seconds. *)
Definition two_policies : Listener.config := {|
  Listener.Project := "p";
  Listener.Subscriptions :=
    [{| Listener.Topic := "a"; Listener.ID := "s1";
        Listener.Config := pubsub.with_ExpirationPolicy pubsub.zero (Str "1h") |};
     {| Listener.Topic := "b"; Listener.ID := "s2";
        Listener.Config := pubsub.with_ExpirationPolicy pubsub.zero (Int 3600) |}];
  Listener.DefaultConfig := pubsub.zero |}.

(** A listener configuration without subscriptions whose default
    configuration has a policy of a shape the type switch refuses. *)
Definition odd_default : Listener.config := {|
  Listener.Project := "p";
  Listener.Subscriptions := [];
  Listener.DefaultConfig := pubsub.with_ExpirationPolicy pubsub.zero (Bool true) |}.

(** A project with the topic ["a"] and two subscriptions to it. *)
Definition crowded_project : world :=
  World {["a"]} {["s1" := "a"; "s2" := "a"]} 0 1 false.

(** Two jobs for the bus and one for another target. *)
Definition mixed_jobs : list Scheduler.job :=
  [bus_job "one" "t1" "* * * * *"; http_job "two"; bus_job "three" "t3" "* * * * *"].

(** What the normalization makes of a subscription: it keeps the topic, the
    id and every field of the configuration but the expiration policy,
    which is absent as before or a duration; a configuration is empty
    afterwards if and only if it was before. *)
Definition normalized (sub sub' : Listener.subscription) : Prop :=
  Listener.Topic sub' = Listener.Topic sub
  /\ Listener.ID sub' = Listener.ID sub
  /\ pubsub.with_ExpirationPolicy (Listener.Config sub') Nil
     = pubsub.with_ExpirationPolicy (Listener.Config sub) Nil
  /\ match pubsub.ExpirationPolicy (Listener.Config sub) with
     | Nil => pubsub.ExpirationPolicy (Listener.Config sub') = Nil
     | _ => exists d, pubsub.ExpirationPolicy (Listener.Config sub') = Duration d
     end
  /\ Listener.isEmptyConfig (Listener.Config sub')
     = Listener.isEmptyConfig (Listener.Config sub).

(** * Properties *)

(** ** Reading a run *)

Section Reading.

Implicit Types evs : list event.

Lemma deleted_subscriptions_app evs evs' :
  deleted_subscriptions (evs ++ evs')
  = (deleted_subscriptions evs ++ deleted_subscriptions evs')%list.
Proof.
  induction evs as [|e evs IH]; [done|].
  simpl. rewrite IH. by repeat case_match.
Qed.

Lemma deleted_topics_app evs evs' :
  deleted_topics (evs ++ evs') = (deleted_topics evs ++ deleted_topics evs')%list.
Proof.
  induction evs as [|e evs IH]; [done|].
  simpl. rewrite IH. by repeat case_match.
Qed.

Lemma created_topics_app evs evs' :
  created_topics (evs ++ evs') = (created_topics evs ++ created_topics evs')%list.
Proof.
  induction evs as [|e evs IH]; [done|].
  simpl. rewrite IH. by repeat case_match.
Qed.

Lemma stopped_topics_app evs evs' :
  stopped_topics (evs ++ evs') = (stopped_topics evs ++ stopped_topics evs')%list.
Proof.
  induction evs as [|e evs IH]; [done|].
  simpl. rewrite IH. by repeat case_match.
Qed.

Lemma cron_entries_app evs evs' :
  cron_entries (evs ++ evs') = (cron_entries evs ++ cron_entries evs')%list.
Proof.
  induction evs as [|e evs IH]; [done|].
  simpl. rewrite IH. by repeat case_match.
Qed.

Lemma requested_subscriptions_app evs evs' :
  requested_subscriptions (evs ++ evs')
  = (requested_subscriptions evs ++ requested_subscriptions evs')%list.
Proof.
  induction evs as [|e evs IH]; [done|].
  simpl. rewrite IH. by repeat case_match.
Qed.

Lemma requested_subscriptions_none evs :
  Forall (fun e => is_create_subscription e = false) evs ->
  requested_subscriptions evs = [].
Proof.
  induction 1 as [|e evs He _ IH]; [done|].
  simpl. rewrite IH. by repeat case_match.
Qed.

Lemma stopped_topics_stopped (topics : list string) :
  stopped_topics (TopicStopped <$> topics) = topics.
Proof. induction topics as [|t rest IH]; [done|]. simpl. f_equal. exact IH. Qed.

Lemma created_topics_stopped (topics : list string) :
  created_topics (TopicStopped <$> topics) = [].
Proof. induction topics as [|t rest IH]; [done|]. exact IH. Qed.

Lemma cron_entries_stopped (topics : list string) :
  cron_entries (TopicStopped <$> topics) = [].
Proof. induction topics as [|t rest IH]; [done|]. exact IH. Qed.

End Reading.

(** ** The monad *)

Lemma prepend_nil {A} (r : result A) : prepend [] r = r.
Proof. by destruct r. Qed.

Lemma prepend_prepend {A} evs evs' (r : result A) :
  prepend evs (prepend evs' r) = prepend (evs ++ evs') r.
Proof. unfold prepend. simpl. by rewrite app_assoc. Qed.

Section MonadFacts.

Context {A B : Type}.
Implicit Types (m : M A) (k : A -> M B) (w : world).

Lemma bind_emit e (k : unit -> M B) w : bind (emit e) k w = prepend [e] (k tt w).
Proof. done. Qed.

Lemma bind_logf format args (k : unit -> M B) w :
  bind (logf format args) k w = prepend [Logged format args] (k tt w).
Proof. done. Qed.

Lemma bind_ret a k w : bind (ret a) k w = k a w.
Proof. unfold bind. simpl. apply prepend_nil. Qed.

Lemma bind_request E ctx op (k : option error -> M B) w :
  bind (request E ctx op) k w
  = prepend [Called ctx op (answer E ctx op w).1]
      (k (answer E ctx op w).1 (answer E ctx op w).2).
Proof. done. Qed.

Lemma bind_result m k w a w' evs :
  m w = Result (Return a) w' evs ->
  bind m k w = prepend evs (k a w').
Proof. intros H. unfold bind. by rewrite H. Qed.

Lemma bind_Return m k w a :
  out (m w) = Return a ->
  bind m k w = prepend (events (m w)) (k a (final (m w))).
Proof. intros H. unfold bind. by rewrite H. Qed.

Lemma bind_Exit m k w s :
  out (m w) = Exit s ->
  bind m k w = Result (Exit s) (final (m w)) (events (m w)).
Proof. intros H. unfold bind. by rewrite H. Qed.

Lemma bind_Forever m k w :
  out (m w) = Forever ->
  bind m k w = Result Forever (final (m w)) (events (m w)).
Proof. intros H. unfold bind. by rewrite H. Qed.

(** What holds of the actions of both parts holds of the actions of
    the sequence. *)
Lemma events_bind_Forall (P : event -> Prop) m k w :
  Forall P (events (m w)) ->
  (forall a w', Forall P (events (k a w'))) ->
  Forall P (events (bind m k w)).
Proof.
  intros Hm Hk. unfold bind. destruct (out (m w)); simpl; try done.
  apply Forall_app. split; [done|apply Hk].
Qed.

(** A sequence that goes through went through both parts. *)
Lemma bind_inv_Return m k w b :
  out (bind m k w) = Return b ->
  exists a, out (m w) = Return a
    /\ out (k a (final (m w))) = Return b
    /\ bind m k w = prepend (events (m w)) (k a (final (m w))).
Proof.
  unfold bind. destruct (out (m w)) as [a| |] eqn:Hm; simpl; try done.
  intros H. by exists a.
Qed.

End MonadFacts.

(** ** The service *)

Section ServiceFacts.

Variable E : env.

Lemma answer_Background op w :
  reliable_from E w -> answer E Background op w = serve op (counted w).
Proof. intros H. unfold answer. simpl. by rewrite (H (rpcs w)). Qed.

Lemma reliable_from_mono w w' :
  (rpcs w <= rpcs w')%nat -> reliable_from E w -> reliable_from E w'.
Proof. intros Hle H n Hn. apply H. lia. Qed.

Lemma answer_rpcs ctx op w : rpcs (answer E ctx op w).2 = S (rpcs w).
Proof.
  unfold answer. destruct (expired ctx w); [done|].
  destruct (rpc_fault E (rpcs w)); [done|].
  destruct op; simpl; repeat case_decide; try done;
    repeat case_match; simplify_eq; done.
Qed.



End ServiceFacts.

(** ** The listener's deletion pass *)

Section DeletionPass.

Variable E : env.

(** One turn of the loop on a subscription the iterator yielded. *)
Lemma delete_each_item s rest w :
  Listener.delete_each E (inr s :: rest) w =
    let a := answer E Background (DeleteSubscription s) w in
    prepend
      (Called Background (DeleteSubscription s) a.1
       :: match a.1 with
          | Some err => [Logged "failed to delete subscription %q: %v" [AStr s; AErr err]]
          | None => []
          end)
      (Listener.delete_each E rest a.2).
Proof.
  cbn [Listener.delete_each]. unfold subscription_Delete.
  rewrite bind_request. cbn zeta.
  destruct (answer E Background (DeleteSubscription s) w).1.
  - by rewrite bind_logf, prepend_prepend.
  - by rewrite bind_ret.
Qed.

(** One turn of the loop on an error of the iterator. *)
Lemma delete_each_error err rest w :
  Listener.delete_each E (inl err :: rest) w =
    prepend [Logged "error during subscription clean up: %v" [AErr err]]
      (Listener.delete_each E rest w).
Proof. done. Qed.

(** Over the results the iterator gives before [iterator.Done] the loop
    comes to its end. *)
Lemma delete_each_returns it w : out (Listener.delete_each E it w) = Return tt.
Proof.
  revert w. induction it as [|[err|s] rest IH]; intros w.
  - done.
  - rewrite delete_each_error. simpl. apply IH.
  - rewrite delete_each_item. simpl. apply IH.
Qed.

(** It asks for the deletion of every subscription the iterator yields,
    once, in the iterator's order, whatever the answers. *)
Lemma delete_each_deletions it w :
  deleted_subscriptions (events (Listener.delete_each E it w)) = items it.
Proof.
  revert w. induction it as [|[err|s] rest IH]; intros w.
  - done.
  - rewrite delete_each_error. simpl. apply IH.
  - rewrite delete_each_item. cbn zeta. cbn [events prepend].
    rewrite deleted_subscriptions_app, IH.
    by destruct (answer E Background (DeleteSubscription s) w).1.
Qed.



(** What is left on the bus when no request is lost: the subscriptions
    that were not listed. *)
Lemma delete_each_bus l w :
  reliable_from E w ->
  bus_subs (final (Listener.delete_each E (inr <$> l) w))
    = foldl (fun m id => delete id m) (bus_subs w) l
  /\ bus_topics (final (Listener.delete_each E (inr <$> l) w)) = bus_topics w.
Proof.
  revert w. induction l as [|s l IH]; intros w Hrel.
  - done.
  - rewrite fmap_cons, delete_each_item. cbn zeta. cbn [final prepend].
    assert (Hnext : reliable_from E (answer E Background (DeleteSubscription s) w).2).
    { eapply reliable_from_mono; [|exact Hrel]. rewrite answer_rpcs. lia. }
    destruct (IH _ Hnext) as [IHs IHt]. rewrite IHs, IHt.
    rewrite answer_Background by done. simpl.
    destruct (bus_subs w !! s) eqn:Hs; simpl; [done|].
    by rewrite delete_id.
Qed.

Lemma foldl_delete_lookup (m : gmap string string) l k :
  foldl (fun m id => delete id m) m l !! k
    = if decide (k ∈ l) then None else m !! k.
Proof.
  revert m. induction l as [|s l IH]; intros m; cbn [foldl].
  - rewrite decide_False; [done|]. apply not_elem_of_nil.
  - rewrite IH. destruct (decide (k = s)) as [->|Hne].
    + rewrite lookup_delete_eq.
      rewrite (decide_True (P := s ∈ s :: l)) by apply list_elem_of_here.
      by case_decide.
    + rewrite lookup_delete_ne by done.
      destruct (decide (k ∈ l)) as [Hin|Hnin].
      * rewrite decide_True; [done|]. by apply list_elem_of_further.
      * rewrite decide_False; [done|].
        intros [?|?]%elem_of_cons; done.
Qed.

Lemma deleteAllSubscriptions_unfold w :
  Listener.deleteAllSubscriptions E w =
    prepend [Called Background ListSubscriptions None]
      (Listener.delete_each E (subs_iter E (bus_subs w)) w).
Proof. done. Qed.

Lemma deleteAllSubscriptions_returns w :
  out (Listener.deleteAllSubscriptions E w) = Return tt.
Proof. rewrite deleteAllSubscriptions_unfold. apply delete_each_returns. Qed.

Lemma deleteAllSubscriptions_deletions w :
  deleted_subscriptions (events (Listener.deleteAllSubscriptions E w))
    = items (subs_iter E (bus_subs w)).
Proof. rewrite deleteAllSubscriptions_unfold. apply delete_each_deletions. Qed.

Lemma items_inr (l : list string) : items (inr <$> l) = l.
Proof. unfold items. induction l as [|x l IH]; [done|]. simpl. f_equal. exact IH. Qed.

(** With a complete listing and no lost request the pass empties the
    project of its subscriptions. *)
Lemma deleteAllSubscriptions_clears w :
  faithful (subs_iter E (bus_subs w)) (dom (bus_subs w)) ->
  reliable_from E w ->
  bus_subs (final (Listener.deleteAllSubscriptions E w)) = ∅.
Proof.
  intros (l & Hl & _ & Hin) Hrel.
  rewrite deleteAllSubscriptions_unfold. cbn [final prepend]. rewrite Hl.
  destruct (delete_each_bus l w Hrel) as [-> _].
  apply map_eq. intros k. rewrite foldl_delete_lookup, lookup_empty.
  case_decide as Hk; [done|].
  apply not_elem_of_dom. by rewrite <- Hin.
Qed.

End DeletionPass.

(** ** The listener's subscription loop *)

Section Subscribing.

Variable E : env.

(** One turn of the loop. *)
Lemma subscribe_all_cons cfg sub rest started w :
  Listener.subscribe_all E cfg (sub :: rest) started w =
    let a := answer E RunCtx
               (CreateSubscription (Listener.ID sub) (Listener.subConfig cfg sub)) w in
    match a.1 with
    | Some err =>
        if decide (grpc_Code err = AlreadyExists) then
          prepend (subscribing cfg sub a.1
                   ++ [Logged "subscription %q already exists" [AStr (Listener.Topic sub)]])
            (Listener.subscribe_all E cfg rest started a.2)
        else
          prepend (subscribing cfg sub a.1
                   ++ [Logged "failed to create subscription %q %q: %#v (%v)"
                         [AStr (Listener.Topic sub); AStr (Listener.ID sub); AErr err;
                          ACode (grpc_Code err)]])
            (bind (Listener.deleteAllSubscriptions E) (fun _ => os_Exit 1) a.2)
    | None =>
        prepend (subscribing cfg sub a.1 ++ [Spawned (Listener.ID sub)])
          (Listener.subscribe_all E cfg rest (started ++ [sub]) a.2)
    end.
Proof.
  cbn [Listener.subscribe_all]. unfold subscribing, client_CreateSubscription.
  rewrite bind_logf.
  destruct (Listener.isEmptyConfig (Listener.Config sub));
    [rewrite bind_logf | rewrite bind_ret];
    rewrite bind_request; cbn zeta;
    (destruct (answer E RunCtx _ w).1 as [err|];
     [case_decide|]; [rewrite bind_logf..|rewrite bind_emit]);
    by rewrite !prepend_prepend.
Qed.

End Subscribing.

Section ListenerRuns.

Variable E : env.

(** A run of the listener that returns ended with the deletion pass. *)
Lemma main_returns_after_deleteAll a f w :
  out (Listener.main E a f w) = Return tt ->
  exists w', final (Listener.main E a f w) = final (Listener.deleteAllSubscriptions E w').
Proof.
  unfold Listener.main. intros H.
  destruct (help a); [done|].
  destruct (String.eqb (conf a) ""); [done|].
  destruct f as [err|err|cfg]; [done|done|].
  apply bind_inv_Return in H as (subs & _ & H & ->).
  destruct (new_client E (Listener.Project cfg)); [done|].
  apply bind_inv_Return in H as (? & _ & H & ->).
  apply bind_inv_Return in H as (topit & _ & H & ->).
  apply bind_inv_Return in H as (subs' & _ & H & ->).
  destruct (bool_decide (length subs' = 0%nat)); [done|].
  apply bind_inv_Return in H as (started & _ & H & ->).
  do 5 (apply bind_inv_Return in H as (? & _ & H & ->)).
  apply bind_inv_Return in H as (? & _ & H & ->).
  cbn [final prepend]. eexists. reflexivity.
Qed.

End ListenerRuns.

(** ** Sample runs *)

Lemma calm_lists_subscriptions (m : gmap string string) :
  faithful (subs_iter calm m) (dom m).
Proof.
  exists (map_to_list m).*1. split; [done|]. split.
  - apply NoDup_fst_map_to_list.
  - intros x. rewrite elem_of_dom. split.
    + intros [[k v] [-> Hkv]]%list_elem_of_fmap.
      apply elem_of_map_to_list in Hkv. by exists v.
    + intros [v Hv]. apply list_elem_of_fmap. exists (x, v).
      split; [done|]. by apply elem_of_map_to_list.
Qed.

Lemma calm_lists_topics (s : gset string) : faithful (topics_iter calm s) s.
Proof.
  exists (elements s). split; [done|]. split.
  - apply NoDup_elements.
  - intros x. apply elem_of_elements.
Qed.

(** The destination of a job is compared without regard to case. *)
Example destination_ignores_case :
  Scheduler.is_pubsub (bus_job "one" "t1" "* * * * *") = true
  /\ ToLower "PUB/SUB" = "pub/sub"
  /\ Scheduler.is_pubsub (http_job "two") = false.
Proof. repeat split. Qed.

(** The spec of a job with a time zone. *)
Example cronspec_with_timezone :
  Scheduler.cronspec <$> Scheduler.Jobs quickstart
  = ["CRON_TZ=America/Los_Angeles * * * * *"].
Proof. reflexivity. Qed.

(** A number of seconds too large for a [time.Duration] wraps around. *)
Example large_policy_wraps :
  out (Listener.normalize calm (Int 9223372037) empty_project)
  = Return (Duration (-9223372036709551616)).
Proof. reflexivity. Qed.

(** The run of the README: the only entry fires three times before the
    interrupt; three messages are published, with the ids the bus gives
    them, and the topic is deleted at the end. *)
Example three_firings :
  events (Scheduler.main ticking plain (Decoded quickstart) empty_project)
  = [Called Background (CreateTopic "cron-job") None;
     CronAdded "CRON_TZ=America/Los_Angeles * * * * *";
     SignalNotify; CronStarted;
     Called Background (Publish "cron-job" "hello cron!") None;
     Logged "published %q id=%s" [AStr "Hello world!"; ANat 1];
     Called Background (Publish "cron-job" "hello cron!") None;
     Logged "published %q id=%s" [AStr "Hello world!"; ANat 2];
     Called Background (Publish "cron-job" "hello cron!") None;
     Logged "published %q id=%s" [AStr "Hello world!"; ANat 3];
     Printed "cancelling"; CronStopped;
     Logged "deleting %v" [AStr "cron-job"];
     Called Background (DeleteTopic "cron-job") None;
     SignalStop; Closed].
Proof. by vm_compute. Qed.

(** ** The scheduler's loops *)

Section SchedulerLoops.

Variable E : env.

Lemma stop_topics_run topics w :
  Scheduler.stop_topics topics w = Result (Return tt) w (TopicStopped <$> topics).
Proof.
  induction topics as [|t rest IH]; [done|].
  cbn [Scheduler.stop_topics]. unfold topic_Stop. rewrite bind_emit, IH. done.
Qed.

Lemma client_CreateTopic_run ctx name w :
  client_CreateTopic E ctx name w =
    Result (Return (match (answer E ctx (CreateTopic name) w).1 with
                    | Some err => inl err
                    | None => inr name
                    end))
      (answer E ctx (CreateTopic name) w).2
      [Called ctx (CreateTopic name) (answer E ctx (CreateTopic name) w).1].
Proof. done. Qed.

(** One turn of the loop over the jobs. *)
Lemma add_jobs_cons j rest topics c w :
  Scheduler.add_jobs E (j :: rest) topics c w =
    if Scheduler.is_pubsub j then
      let name := Scheduler.Topic (Scheduler.Target j) in
      let a := answer E Background (CreateTopic name) w in
      match a.1 with
      | Some err =>
          Result (Exit 1) a.2
            (Called Background (CreateTopic name) (Some err)
             :: Logged "failed to publish topic %q: %v" [AStr name; AErr err]
             :: (TopicStopped <$> topics))
      | None =>
          match cron_parse E (Scheduler.cronspec j) with
          | Some err =>
              Result (Exit 1) a.2
                (Called Background (CreateTopic name) None
                 :: Logged "error in cronspec for %q: %v" [AStr (Scheduler.Name j); AErr err]
                 :: (TopicStopped <$> topics))
          | None =>
              prepend [Called Background (CreateTopic name) None;
                       CronAdded (Scheduler.cronspec j)]
                (Scheduler.add_jobs E rest (topics ++ [name])
                   (c ++ [Scheduler.Build_entry (Scheduler.cronspec j) j name]) a.2)
          end
      end
    else Scheduler.add_jobs E rest topics c w.
Proof.
  cbn [Scheduler.add_jobs]. destruct (Scheduler.is_pubsub j); [|done].
  cbn [negb]. cbn zeta.
  rewrite (bind_result _ _ _ _ _ _ (client_CreateTopic_run _ _ _)).
  destruct (answer E Background _ w).1 as [err|].
  - rewrite bind_logf.
    rewrite (bind_result _ _ _ _ _ _ (stop_topics_run _ _)).
      unfold prepend, os_Exit. simpl. by rewrite app_nil_r.
  - destruct (cron_parse E (Scheduler.cronspec j)).
    + rewrite bind_logf.
      rewrite (bind_result _ _ _ _ _ _ (stop_topics_run _ _)).
      unfold prepend, os_Exit. simpl. by rewrite app_nil_r.
    + rewrite bind_emit. by rewrite prepend_prepend.
Qed.

(** One turn of the loop that deletes the topics. *)
Lemma delete_topics_cons t rest w :
  Scheduler.delete_topics E (t :: rest) w =
    let a := answer E Background (DeleteTopic t) w in
    match a.1 with
    | Some err =>
        Result (Exit 1) a.2
          [Logged "deleting %v" [AStr t];
           Called Background (DeleteTopic t) (Some err);
           Logged "failed to delete topic: %v" [AErr err]]
    | None =>
        prepend [Logged "deleting %v" [AStr t]; Called Background (DeleteTopic t) None]
          (Scheduler.delete_topics E rest a.2)
    end.
Proof.
  cbn [Scheduler.delete_topics]. unfold topic_Delete.
  rewrite bind_logf, bind_request. cbn zeta.
  destruct (answer E Background _ w).1 as [err|].
  - done.
  - by rewrite prepend_prepend.
Qed.

End SchedulerLoops.

(** ** Failures during teardown *)

Section Teardown.

Variable E : env.

(** The listener logs every deletion that fails. *)
Lemma delete_each_logs_failures it w s err :
  Called Background (DeleteSubscription s) (Some err)
    ∈ events (Listener.delete_each E it w) ->
  Logged "failed to delete subscription %q: %v" [AStr s; AErr err]
    ∈ events (Listener.delete_each E it w).
Proof.
  revert w. induction it as [|[err'|s'] rest IH]; intros w.
  - intros H. by apply elem_of_nil in H.
  - rewrite delete_each_error. cbn [events prepend].
    rewrite !elem_of_app. intros [H|H]; [|right; by apply IH].
    apply list_elem_of_singleton in H. done.
  - rewrite delete_each_item. cbn zeta. cbn [events prepend].
    rewrite !elem_of_app. intros [H|H]; [left|right; by apply IH].
    destruct (answer E Background (DeleteSubscription s') w).1 as [err'|].
    + apply elem_of_cons in H as [H|H].
      * simplify_eq. apply list_elem_of_further, list_elem_of_here.
      * apply list_elem_of_singleton in H. done.
    + apply list_elem_of_singleton in H. done.
Qed.

(** The scheduler deletes its topics in order, up to the first deletion
    that fails. *)
Lemma delete_topics_stops_at_first_failure topics w :
  let r := Scheduler.delete_topics E topics w in
  (out r = Return tt
   /\ deleted_topics (events r) = topics
   /\ forall t err, Called Background (DeleteTopic t) (Some err) ∉ events r)
  \/ (exists before t rest err,
        topics = (before ++ t :: rest)%list
        /\ out r = Exit 1
        /\ deleted_topics (events r) = (before ++ [t])%list
        /\ Called Background (DeleteTopic t) (Some err) ∈ events r
        /\ Logged "failed to delete topic: %v" [AErr err] ∈ events r).
Proof.
  revert w. induction topics as [|t rest IH]; intros w; cbn zeta.
  - left. split; [done|]. split; [done|]. intros t err. apply not_elem_of_nil.
  - rewrite delete_topics_cons. cbn zeta.
    destruct (answer E Background (DeleteTopic t) w).1 as [err|].
    + right. exists [], t, rest, err. cbn [out events].
      split; [done|]. split; [done|]. split; [done|].
      split; [apply list_elem_of_further, list_elem_of_here|].
      do 2 apply list_elem_of_further. apply list_elem_of_here.
    + cbn [out events prepend].
      destruct (IH (answer E Background (DeleteTopic t) w).2)
        as [(Hout & Hdel & Hnone) | (before & t' & rest' & err & -> & Hout & Hdel & Hcall & Hlog)].
      * left. split; [done|]. split.
        { simpl. by rewrite Hdel. }
        intros t' err [H|H]%elem_of_app; [|by eapply Hnone].
        apply elem_of_cons in H as [?|H]; [done|].
        apply list_elem_of_singleton in H. done.
      * right. exists (t :: before), t', rest', err.
        split; [done|]. split; [done|]. split.
        { simpl. by rewrite Hdel. }
        split; apply elem_of_app; by right.
Qed.

End Teardown.

(** ** The startup of the scheduler *)

Section Startup.

Variable E : env.

Lemma answer_CreateTopic ctx name w :
  bus_topics w ⊆ bus_topics (answer E ctx (CreateTopic name) w).2
  /\ ((answer E ctx (CreateTopic name) w).1 = None ->
      name ∈ bus_topics (answer E ctx (CreateTopic name) w).2).
Proof.
  unfold answer. destruct (expired ctx w); [done|].
  destruct (rpc_fault E (rpcs w)); [done|].
  simpl. case_decide; simpl; set_solver.
Qed.

(** Before the cron engine starts, the scheduler creates topics, writes
    to the log, stops topics and fills the cron table, and nothing else. *)
Lemma add_jobs_events jobs topics c w :
  Forall (fun e => startup_event e = true) (events (Scheduler.add_jobs E jobs topics c w)).
Proof.
  revert topics c w. induction jobs as [|j rest IH]; intros topics c w.
  - constructor.
  - rewrite add_jobs_cons. destruct (Scheduler.is_pubsub j); [|apply IH]. cbn zeta.
    assert (Hstop : Forall (fun e => startup_event e = true) (TopicStopped <$> topics)).
    { apply Forall_fmap, Forall_true. done. }
    destruct (answer E Background _ w).1 as [err|].
    + cbn [events]. by repeat constructor.
    + destruct (cron_parse E (Scheduler.cronspec j)).
      * cbn [events]. by repeat constructor.
      * cbn [events prepend]. apply Forall_app. split; [by repeat constructor|apply IH].
Qed.

(** The loop removes no topic from the bus. *)
Lemma add_jobs_grows jobs topics c w :
  bus_topics w ⊆ bus_topics (final (Scheduler.add_jobs E jobs topics c w)).
Proof.
  revert topics c w. induction jobs as [|j rest IH]; intros topics c w.
  - done.
  - rewrite add_jobs_cons. destruct (Scheduler.is_pubsub j); [|apply IH]. cbn zeta.
    pose proof (answer_CreateTopic Background (Scheduler.Topic (Scheduler.Target j)) w)
      as [Hsub _].
    destruct (answer E Background _ w).1 as [err|]; [done|].
    destruct (cron_parse E (Scheduler.cronspec j)); [done|].
    cbn [final prepend]. etrans; [exact Hsub|apply IH].
Qed.

(** The topics it created are on the bus when it is over. *)
Lemma add_jobs_created jobs topics c w t :
  t ∈ created_topics (events (Scheduler.add_jobs E jobs topics c w)) ->
  t ∈ bus_topics (final (Scheduler.add_jobs E jobs topics c w)).
Proof.
  revert topics c w. induction jobs as [|j rest IH]; intros topics c w.
  - intros H. by apply elem_of_nil in H.
  - rewrite add_jobs_cons. destruct (Scheduler.is_pubsub j); [|apply IH]. cbn zeta.
    pose proof (answer_CreateTopic Background (Scheduler.Topic (Scheduler.Target j)) w)
      as [_ Hin].
    destruct (answer E Background _ w).1 as [err|].
    + cbn [events final]. simpl. rewrite created_topics_stopped.
      intros H. by apply elem_of_nil in H.
    + specialize (Hin eq_refl).
      destruct (cron_parse E (Scheduler.cronspec j)).
      * cbn [events final]. simpl. rewrite created_topics_stopped.
        intros H. apply list_elem_of_singleton in H. by subst.
      * cbn [events final prepend]. simpl.
        intros [->|H]%elem_of_cons; [|by apply IH].
        by apply add_jobs_grows.
Qed.

(** When a creation fails the loop ends the process with status 1,
    after [Stop] on the topics created so far. *)
Lemma add_jobs_failed_creation jobs topics c w :
  (exists name err,
      Called Background (CreateTopic name) (Some err)
        ∈ events (Scheduler.add_jobs E jobs topics c w)) ->
  out (Scheduler.add_jobs E jobs topics c w) = Exit 1
  /\ stopped_topics (events (Scheduler.add_jobs E jobs topics c w))
     = (topics ++ created_topics (events (Scheduler.add_jobs E jobs topics c w)))%list.
Proof.
  revert topics c w. induction jobs as [|j rest IH]; intros topics c w.
  - intros (name & err & H). by apply elem_of_nil in H.
  - rewrite add_jobs_cons. destruct (Scheduler.is_pubsub j); [|apply IH]. cbn zeta.
    assert (Hnone : forall name err,
               Called Background (CreateTopic name) (Some err) ∉ (TopicStopped <$> topics)).
    { intros name err [? [? _]]%list_elem_of_fmap. done. }
    destruct (answer E Background _ w).1 as [err|].
    + intros _. cbn [out events]. split; [done|].
      simpl. rewrite stopped_topics_stopped, created_topics_stopped.
      by rewrite app_nil_r.
    + destruct (cron_parse E (Scheduler.cronspec j)).
      * intros (name & err & H). cbn [events] in H.
        apply elem_of_cons in H as [?|H]; [done|].
        apply elem_of_cons in H as [?|H]; [done|].
        by apply Hnone in H.
      * intros (name & err & H). cbn [events prepend] in H.
        apply elem_of_app in H as [H|H].
        { apply elem_of_cons in H as [?|H]; [done|].
          apply list_elem_of_singleton in H. done. }
        destruct (IH _ _ _ (ex_intro _ name (ex_intro _ err H))) as [Hout Hstop].
        cbn [out events prepend]. split; [done|].
        simpl. rewrite Hstop. by rewrite <- app_assoc.
Qed.

End Startup.

Section AfterStartup.

Variable E : env.

(** Neither a topic creation nor the report of a refused spec. *)
Let quiet (e : event) : Prop := is_create_topic e || is_cronspec_error e = false.

Lemma publish_quiet j t w : Forall quiet (events (Scheduler.publish E j t w)).
Proof.
  unfold Scheduler.publish, topic_Publish.
  apply events_bind_Forall.
  - apply events_bind_Forall; [by repeat constructor|].
    intros a w'. constructor.
  - intros [err|id] w'; by repeat constructor.
Qed.

Lemma run_quiet c due w : Forall quiet (events (Scheduler.run E c due w)).
Proof.
  revert w. induction due as [|i rest IH]; intros w; [constructor|].
  cbn [Scheduler.run]. apply events_bind_Forall; [|intros; apply IH].
  unfold Scheduler.fire. destruct (c !! i); [apply publish_quiet|constructor].
Qed.

Lemma await_quiet a w : Forall quiet (events (Scheduler.await E a w)).
Proof.
  unfold Scheduler.await. destruct (interrupt E); [constructor|].
  destruct (duration a =? 0); constructor.
Qed.

Lemma delete_topics_quiet topics w :
  Forall quiet (events (Scheduler.delete_topics E topics w)).
Proof.
  revert w. induction topics as [|t rest IH]; intros w; [constructor|].
  rewrite delete_topics_cons. cbn zeta.
  destruct (answer E Background _ w).1; [by repeat constructor|].
  cbn [events prepend]. apply Forall_app. split; [by repeat constructor|apply IH].
Qed.

(** A topic creation, or the report of a refused spec, found in the
    actions of a run of the scheduler was found in those of its loop
    over the jobs; when the loop exits, the run ends there. *)
Lemma main_startup a f w e :
  is_create_topic e || is_cronspec_error e = true ->
  e ∈ events (Scheduler.main E a f w) ->
  exists cfg,
    let r0 := Scheduler.add_jobs E (Scheduler.Jobs cfg) [] [] w in
    e ∈ events r0
    /\ forall s, out r0 = Exit s ->
                 Scheduler.main E a f w = Result (Exit s) (final r0) (events r0).
Proof.
  intros He H. unfold Scheduler.main in *.
  destruct (help a).
  { cbn in H. repeat (apply elem_of_cons in H as [->|H]; [done|]). by apply elem_of_nil in H. }
  destruct (String.eqb (conf a) "").
  { cbn in H. repeat (apply elem_of_cons in H as [->|H]; [done|]). by apply elem_of_nil in H. }
  destruct f as [e'|e'|cfg].
  { cbn in H. repeat (apply elem_of_cons in H as [->|H]; [done|]). by apply elem_of_nil in H. }
  { cbn in H. repeat (apply elem_of_cons in H as [->|H]; [done|]). by apply elem_of_nil in H. }
  destruct (new_client E (Scheduler.Project cfg)).
  { cbn in H. repeat (apply elem_of_cons in H as [->|H]; [done|]). by apply elem_of_nil in H. }
  exists cfg. cbn zeta. split.
  - destruct (out (Scheduler.add_jobs E (Scheduler.Jobs cfg) [] [] w)) as [tc|s|] eqn:Hout.
    + rewrite (bind_Return _ _ _ _ Hout) in H. cbn [events prepend] in H.
      apply elem_of_app in H as [H|H]; [done|]. exfalso.
      assert (Hquiet : Forall quiet (events
                ((emit SignalNotify ;; emit CronStarted ;;
                  Scheduler.run E tc.2 (firings E) ;; Scheduler.await E a ;;
                  emit (Printed "cancelling") ;; emit CronStopped ;;
                  Scheduler.delete_topics E tc.1 ;; emit SignalStop ;; emit Closed)
                   (final (Scheduler.add_jobs E (Scheduler.Jobs cfg) [] [] w))))).
      { repeat (apply events_bind_Forall; [|intros ? ?]);
          auto using run_quiet, await_quiet, delete_topics_quiet;
          by repeat constructor. }
      rewrite Forall_forall in Hquiet. apply Hquiet in H.
      unfold quiet in H. by rewrite He in H.
    + by rewrite (bind_Exit _ _ _ _ Hout) in H.
    + by rewrite (bind_Forever _ _ _ Hout) in H.
  - intros s Hout. by rewrite (bind_Exit _ _ _ _ Hout).
Qed.

Lemma main_failed_creation a f w :
  (exists name err,
      Called Background (CreateTopic name) (Some err) ∈ events (Scheduler.main E a f w)) ->
  exists cfg,
    let r0 := Scheduler.add_jobs E (Scheduler.Jobs cfg) [] [] w in
    (exists name err, Called Background (CreateTopic name) (Some err) ∈ events r0)
    /\ Scheduler.main E a f w = Result (Exit 1) (final r0) (events r0).
Proof.
  intros (name & err & H).
  destruct (main_startup a f w (Called Background (CreateTopic name) (Some err))
              eq_refl H) as (cfg & Hin & Hexit).
  exists cfg. cbn zeta. split; [by exists name, err|].
  apply Hexit.
  by destruct (add_jobs_failed_creation E _ _ _ _ (ex_intro _ name (ex_intro _ err Hin))).
Qed.

End AfterStartup.

Lemma startup_deletes_nothing evs :
  Forall (fun e => startup_event e = true) evs -> deleted_topics evs = [].
Proof.
  induction 1 as [|e evs He _ IH]; [done|].
  simpl. rewrite IH. destruct e as [| | | |[] [] ?| | | | | | | | |]; done.
Qed.

(** ** Configuration errors *)

Section ConfigurationErrors.

Variable E : env.

(** The type switch either yields a value or reports and exits; it
    leaves the world alone. *)
Lemma normalize_run exp w :
  (exists p, Listener.normalize E exp w = Result (Return p) w [])
  \/ (exists format args,
        Listener.normalize E exp w = Result (Exit 1) w [Logged format args]).
Proof.
  destruct exp; simpl; try (right; by eexists _, _); try (left; by eexists).
  destruct (ParseDuration E s); [right; by eexists _, _|left; by eexists].
Qed.

Lemma normalize_all_run subs w :
  (exists subs', Listener.normalize_all E subs w = Result (Return subs') w [])
  \/ (exists format args,
        Listener.normalize_all E subs w = Result (Exit 1) w [Logged format args]).
Proof.
  induction subs as [|sub rest IH]; [left; by eexists|].
  cbn [Listener.normalize_all].
  destruct (normalize_run (pubsub.ExpirationPolicy (Listener.Config sub)) w)
    as [[p Hp]|(format & args & Hp)].
  - rewrite (bind_result _ _ _ _ _ _ Hp), prepend_nil.
    destruct IH as [[subs' Hr]|(format & args & Hr)].
    + left. rewrite (bind_result _ _ _ _ _ _ Hr), prepend_nil. by eexists.
    + right. exists format, args. unfold bind. by rewrite Hr.
  - right. exists format, args. unfold bind. by rewrite Hp.
Qed.



End ConfigurationErrors.

(** ** What a computation leaves as it is *)

Section Keeping.

Context {X : Type} (f : world -> X).

Lemma keeps_bind {A B} (m : M A) (k : A -> M B) w :
  f (final (m w)) = f w ->
  (forall a w', f (final (k a w')) = f w') ->
  f (final (bind m k w)) = f w.
Proof.
  intros Hm Hk. unfold bind. destruct (out (m w)); simpl; try done.
  by rewrite Hk.
Qed.

End Keeping.

Section Requests.

Variable E : env.

(** Requests about subscriptions, and listings, leave the topics alone. *)
Lemma answer_keeps_topics ctx op w :
  match op with CreateTopic _ | DeleteTopic _ => False | _ => True end ->
  bus_topics (answer E ctx op w).2 = bus_topics w.
Proof.
  intros Hop. unfold answer. destruct (expired ctx w); [done|].
  destruct (rpc_fault E (rpcs w)); [done|].
  destruct op; simpl; try done; repeat case_match; done.
Qed.

(** Requests about topics, and listings, leave the subscriptions alone. *)
Lemma answer_keeps_subs ctx op w :
  match op with CreateSubscription _ _ | DeleteSubscription _ => False | _ => True end ->
  bus_subs (answer E ctx op w).2 = bus_subs w.
Proof.
  intros Hop. unfold answer. destruct (expired ctx w); [done|].
  destruct (rpc_fault E (rpcs w)); [done|].
  destruct op; simpl; try done; repeat case_match; done.
Qed.

(** No request changes the state of the run context. *)
Lemma answer_keeps_run_done ctx op w :
  run_done (answer E ctx op w).2 = run_done w.
Proof.
  unfold answer. destruct (expired ctx w); [done|].
  destruct (rpc_fault E (rpcs w)); [done|].
  destruct op; simpl; try done; repeat case_match; done.
Qed.

End Requests.

(** ** The phases of the listener *)

Section ListenerPhases.

Variable E : env.

Let late (e : event) : Prop := late_event e = true.

Lemma receive_run started ms w :
  out (Listener.receive started ms w) = Return tt
  /\ final (Listener.receive started ms w) = w
  /\ Forall late (events (Listener.receive started ms w)).
Proof.
  induction ms as [|[id m] rest (IHo & IHf & IHe)]; [by repeat split|].
  cbn [Listener.receive]. case_bool_decide.
  - erewrite bind_result by reflexivity.
    cbn [out final events prepend]. split; [done|]. split; [done|].
    apply Forall_app. split; [by repeat constructor|done].
  - by rewrite bind_ret.
Qed.

Lemma report_run started w :
  out (Listener.report E started w) = Return tt
  /\ final (Listener.report E started w) = w
  /\ Forall late (events (Listener.report E started w)).
Proof.
  induction started as [|sub rest (IHo & IHf & IHe)]; [by repeat split|].
  cbn [Listener.report]. destruct (receive_error E (Listener.ID sub)) as [err|].
  - case_decide.
    + by rewrite bind_ret.
    + rewrite bind_logf. cbn [out final events prepend].
      split; [done|]. split; [done|]. by constructor.
  - by rewrite bind_ret.
Qed.

Lemma wait_run a started w :
  events (Listener.wait E a started w) = []
  /\ bus_topics (final (Listener.wait E a started w)) = bus_topics w
  /\ bus_subs (final (Listener.wait E a started w)) = bus_subs w
  /\ rpcs (final (Listener.wait E a started w)) = rpcs w
  /\ (started = [] -> out (Listener.wait E a started w) = Return tt)
  /\ (out (Listener.wait E a started w) = Return tt
      \/ out (Listener.wait E a started w) = Forever).
Proof.
  unfold Listener.wait.
  assert (Hnil : started = [] -> Listener.live E started = []) by by intros ->.
  destruct (Listener.live E started); [repeat split; auto|].
  destruct (run_done w); [repeat split; auto; by intros ?%Hnil|].
  destruct (interrupt E || negb (duration a =? 0));
    repeat split; auto; by intros ?%Hnil.
Qed.

Lemma deleteAllSubscriptions_late w :
  Forall late (events (Listener.deleteAllSubscriptions E w)).
Proof.
  rewrite deleteAllSubscriptions_unfold. cbn [events prepend].
  constructor; [done|].
  generalize (subs_iter E (bus_subs w)). intros it.
  revert w. induction it as [|[err|s] rest IH]; intros w.
  - constructor.
  - rewrite delete_each_error. constructor; [done|apply IH].
  - rewrite delete_each_item. cbn zeta. cbn [events prepend].
    apply Forall_app. split; [|apply IH].
    destruct (answer E Background (DeleteSubscription s) w).1; by repeat constructor.
Qed.

Lemma deleteAllSubscriptions_keeps_topics w :
  bus_topics (final (Listener.deleteAllSubscriptions E w)) = bus_topics w.
Proof.
  rewrite deleteAllSubscriptions_unfold. cbn [final prepend].
  generalize (subs_iter E (bus_subs w)). intros it.
  revert w. induction it as [|[err|s] rest IH]; intros w.
  - done.
  - rewrite delete_each_error. apply IH.
  - rewrite delete_each_item. cbn zeta. cbn [final prepend].
    rewrite IH. by apply answer_keeps_topics.
Qed.

Lemma enumerate_run all topit subs w :
  final (Listener.enumerate all topit subs w) = w
  /\ Forall late (events (Listener.enumerate all topit subs w))
  /\ (out (Listener.enumerate all topit subs w) = Exit 1
      \/ exists subs', out (Listener.enumerate all topit subs w) = Return subs').
Proof.
  revert subs. induction topit as [|[err|id] rest IH]; intros subs.
  - split; [done|]. split; [constructor|]. right. by eexists.
  - split; [done|]. split; [by repeat constructor|]. by left.
  - cbn [Listener.enumerate]. rewrite bind_logf. destruct all.
    + rewrite bind_logf, prepend_prepend. cbn [out final events prepend].
      destruct (IH (subs ++ [{| Listener.Topic := id; Listener.ID := id;
                                Listener.Config := pubsub.zero |}])%list)
        as (Hf & He & Ho).
      split; [done|]. split; [|done].
      apply Forall_app. split; [by repeat constructor|done].
    + cbn [out final events prepend]. destruct (IH subs) as (Hf & He & Ho).
      split; [done|]. split; [|done]. by constructor.
Qed.

End ListenerPhases.

Section SubscriptionLoop.

Variable E : env.

Lemma subscribing_facts cfg sub failure :
  Forall (fun e => listener_event e = true) (subscribing cfg sub failure)
  /\ spawned (subscribing cfg sub failure) = []
  /\ created_subscriptions (subscribing cfg sub failure)
     = match failure with None => [Listener.ID sub] | Some _ => [] end.
Proof.
  unfold subscribing.
  destruct (Listener.isEmptyConfig _), failure; cbn; by repeat constructor.
Qed.

Lemma spawned_app evs evs' : spawned (evs ++ evs') = (spawned evs ++ spawned evs')%list.
Proof.
  induction evs as [|e evs IH]; [done|].
  simpl. rewrite IH. by repeat case_match.
Qed.

Lemma created_subscriptions_app evs evs' :
  created_subscriptions (evs ++ evs')
  = (created_subscriptions evs ++ created_subscriptions evs')%list.
Proof.
  induction evs as [|e evs IH]; [done|].
  simpl. rewrite IH. by repeat case_match.
Qed.

Lemma late_is_quiet evs :
  Forall (fun e => late_event e = true) evs ->
  Forall (fun e => listener_event e = true) evs
  /\ spawned evs = [] /\ created_subscriptions evs = []
  /\ requested_subscriptions evs = [].
Proof.
  induction 1 as [|e evs He _ (IH1 & IH2 & IH3 & IH4)]; [by repeat split|].
  destruct e as [| | | |[] [] ?| | | | | | | | |]; try done; cbn;
    by repeat (split || constructor).
Qed.

(** The end of the loop on a creation that failed: the deletion pass,
    then [os.Exit(1)]. *)
Lemma give_up_run w :
  bind (Listener.deleteAllSubscriptions E) (fun _ => os_Exit (A := list Listener.subscription) 1) w
  = Result (Exit 1) (final (Listener.deleteAllSubscriptions E w))
      (events (Listener.deleteAllSubscriptions E w)).
Proof.
  rewrite (bind_Return _ _ _ _ (deleteAllSubscriptions_returns E w)).
  unfold prepend, os_Exit. cbn. by rewrite app_nil_r.
Qed.

(** What holds of the loop, whatever the service answers. *)
Lemma subscribe_all_facts cfg subs started w :
  let r := Listener.subscribe_all E cfg subs started w in
  Forall (fun e => listener_event e = true) (events r)
  /\ bus_topics (final r) = bus_topics w
  /\ spawned (events r) = created_subscriptions (events r)
  /\ match out r with
     | Return started' =>
         Listener.ID <$> started' = ((Listener.ID <$> started) ++ spawned (events r))%list
     | Exit s =>
         s = 1 /\ exists w', final r = final (Listener.deleteAllSubscriptions E w')
     | Forever => False
     end.
Proof.
  cbn zeta. revert started w. induction subs as [|sub rest IH]; intros started w.
  - cbn. rewrite app_nil_r. by repeat split.
  - rewrite subscribe_all_cons. cbn zeta.
    pose proof (answer_keeps_topics E RunCtx
                  (CreateSubscription (Listener.ID sub) (Listener.subConfig cfg sub)) w I)
      as Htopics.
    destruct (answer E RunCtx
                (CreateSubscription (Listener.ID sub) (Listener.subConfig cfg sub)) w)
      as [failure w2].
    cbn [fst snd] in *.
    destruct (subscribing_facts cfg sub failure) as (Hev & Hsp & Hcr).
    destruct failure as [err|].
    + case_decide.
      * destruct (IH started w2) as (IHe & IHt & IHs & IHo).
        cbn [out final events prepend].
        rewrite !spawned_app, !created_subscriptions_app, Hsp, Hcr.
        cbn [app spawned created_subscriptions].
        split; [|split; [congruence|split; [done|]]].
        { apply Forall_app. split; [|done]. apply Forall_app. split; [done|].
          by repeat constructor. }
        done.
      * rewrite give_up_run. cbn [out final events prepend].
        destruct (late_is_quiet _ (deleteAllSubscriptions_late E w2))
          as (Hl & Hls & Hlc & _).
        rewrite !spawned_app, !created_subscriptions_app, Hsp, Hcr, Hls, Hlc.
        cbn [app spawned created_subscriptions].
        split; [|split; [|split; [done|]]].
        { apply Forall_app. split; [|done]. apply Forall_app. split; [done|].
          by repeat constructor. }
        { by rewrite deleteAllSubscriptions_keeps_topics. }
        split; [done|]. by eexists.
    + destruct (IH (started ++ [sub])%list w2) as (IHe & IHt & IHs & IHo).
      cbn [out final events prepend].
      rewrite !spawned_app, !created_subscriptions_app, Hsp, Hcr.
        cbn [app spawned created_subscriptions].
      split; [|split; [congruence|split; [by rewrite IHs|]]].
      { apply Forall_app. split; [|done]. apply Forall_app. split; [done|].
        by repeat constructor. }
      destruct (out (Listener.subscribe_all E cfg rest _ _)); [|done..].
      rewrite IHo, fmap_app. cbn [fmap list_fmap]. by rewrite <- app_assoc.
Qed.

End SubscriptionLoop.

Section ListenerMain.

Variable E : env.

(** From the start of the receivers to the end of the run. *)
Lemma listener_tail a started w :
  let r := (emit SignalNotify ;;
            Listener.receive started (deliveries E) ;;
            Listener.report E started ;;
            Listener.wait E a started ;;
            emit (Printed "cancelling") ;;
            Listener.deleteAllSubscriptions E ;;
            emit SignalStop ;;
            emit Closed) w in
  Forall (fun e => late_event e = true) (events r)
  /\ bus_topics (final r) = bus_topics w
  /\ (out r = Return tt \/ out r = Forever)
  /\ (started = [] -> out r = Return tt).
Proof.
  cbn zeta. rewrite bind_emit.
  destruct (receive_run started (deliveries E) w) as (Ro & Rf & Re).
  rewrite (bind_Return _ _ _ _ Ro), Rf.
  destruct (report_run E started w) as (Po & Pf & Pe).
  rewrite (bind_Return _ _ _ _ Po), Pf.
  destruct (wait_run E a started w) as (We & Wt & _ & _ & Wnil & [Wo|Wo]).
  - rewrite (bind_Return _ _ _ _ Wo), We, bind_emit.
    rewrite (bind_Return _ _ _ _ (deleteAllSubscriptions_returns E _)).
    rewrite !prepend_prepend. cbn [out final events prepend bind emit].
    rewrite deleteAllSubscriptions_keeps_topics, Wt.
    split; [|by auto].
    rewrite !Forall_app.
    split; [|by repeat constructor].
    split; [|apply deleteAllSubscriptions_late].
    repeat split; try done; by repeat constructor.
  - rewrite (bind_Forever _ _ _ Wo), We, !prepend_prepend.
    cbn [out final events prepend]. rewrite Wt, app_nil_r.
    split; [|split; [done|split; [by right|]]].
    + rewrite !Forall_app. repeat split; try done; by repeat constructor.
    + intros Hs. by rewrite (Wnil Hs) in Wo.
Qed.

(** What holds of every run of the listener. *)
Lemma listener_main_facts a f w :
  let r := Listener.main E a f w in
  Forall (fun e => listener_event e = true) (events r)
  /\ bus_topics (final r) = bus_topics w
  /\ spawned (events r) = created_subscriptions (events r)
  /\ expected_outcome (out r)
  /\ (out r = Exit 2 <-> help a = false /\ conf a = "")
  /\ (spawned (events r) = [] -> out r <> Forever).
Proof.
  cbn zeta. unfold Listener.main, expected_outcome.
  destruct (help a).
  { cbn. split_and!; try done; try (by repeat constructor); auto.
    split; [done|]. by intros [? _]. }
  destruct (String.eqb_spec (conf a) "") as [Hconf|Hconf].
  { cbn. split_and!; try done; try (by repeat constructor); auto. }
  assert (Hno2 : forall o : outcome unit,
             o <> Exit 2 -> o = Exit 2 <-> false = false /\ conf a = "").
  { intros o Ho. split; [done|]. by intros [_ ?]. }
  destruct f as [err|err|cfg].
  { cbn. split_and!; try done; try (by repeat constructor); auto; try by apply Hno2. }
  { cbn. split_and!; try done; try (by repeat constructor); auto; try by apply Hno2. }
  destruct (normalize_all_run E (Listener.Subscriptions cfg) w)
    as [[subs0 Hr]|(format & args & Hr)].
  2:{ assert (Ho : out (Listener.normalize_all E (Listener.Subscriptions cfg) w) = Exit 1)
        by by rewrite Hr.
      rewrite (bind_Exit _ _ _ _ Ho), Hr. cbn.
      split_and!; try done; try (by repeat constructor); auto; try by apply Hno2. }
  rewrite (bind_result _ _ _ _ _ _ Hr), prepend_nil.
  destruct (new_client E (Listener.Project cfg)).
  { cbn. split_and!; try done; try (by repeat constructor); auto; try by apply Hno2. }
  rewrite bind_logf.
  erewrite (bind_result (client_Topics E RunCtx)) by reflexivity.
  rewrite prepend_prepend.
  set (topit := if expired RunCtx w then _ else _).
  set (all := bool_decide (length subs0 = 0%nat)).
  destruct (enumerate_run all topit subs0 w) as (Hf & He & Ho).
  destruct (late_is_quiet _ He) as (Hel & Hes & Hec & _).
  destruct Ho as [Ho|[subs Ho]].
  { rewrite (bind_Exit _ _ _ _ Ho), Hf. cbn [out final events prepend].
    rewrite !spawned_app, !created_subscriptions_app, Hes, Hec.
    split; [apply Forall_app; split; [by repeat constructor|done]|].
    split_and!; try done; auto; try by apply Hno2. }
  rewrite (bind_Return _ _ _ _ Ho), Hf, prepend_prepend.
  case_bool_decide as Hlen.
  { cbn [out final events prepend bind logf emit os_Exit].
    rewrite !spawned_app, !created_subscriptions_app, Hes, Hec.
    split.
    { rewrite !Forall_app. split_and!; try done; by repeat constructor. }
    split_and!; try done; auto; try by apply Hno2. }
  destruct (subscribe_all_facts E cfg subs [] w) as (Se & St & Ss & So).
  destruct (out (Listener.subscribe_all E cfg subs [] w)) as [started|s|] eqn:Souts;
    [|destruct So as [-> _]|done].
  - rewrite (bind_Return _ _ _ _ Souts).
    destruct (listener_tail a started (final (Listener.subscribe_all E cfg subs [] w)))
      as (Te & Tt & To & Tnil).
    destruct (late_is_quiet _ Te) as (Tel & Tes & Tec & _).
    rewrite prepend_prepend. cbn [out final events prepend].
    rewrite !spawned_app, !created_subscriptions_app, Hes, Hec, Tes, Tec, Ss, !app_nil_r.
    rewrite Tt, St.
    split; [rewrite !Forall_app; split_and!; try done; by repeat constructor|].
    split; [done|]. split; [done|]. split; [destruct To as [->| ->]; auto|].
    split.
    + apply Hno2. by destruct To as [->| ->].
    + intros Hnone. cbn [app spawned created_subscriptions] in Hnone.
      rewrite <- Ss in Hnone. rewrite Hnone, app_nil_r in So. cbn in So.
      apply fmap_nil_inv in So. by rewrite (Tnil So).
  - rewrite (bind_Exit _ _ _ _ Souts). cbn [out final events prepend].
    rewrite !spawned_app, !created_subscriptions_app, Hes, Hec, Ss, St.
    split; [rewrite !Forall_app; split_and!; try done; by repeat constructor|].
    split_and!; try done; auto; try by apply Hno2.
Qed.

End ListenerMain.

Section FailedSubscription.

Variable E : env.

Lemma subscribing_failure cfg sub failure ctx op err :
  Called ctx op (Some err) ∈ subscribing cfg sub failure -> failure = Some err.
Proof.
  unfold subscribing. intros H.
  apply elem_of_cons in H as [?|H]; [done|].
  apply elem_of_app in H as [H|H].
  - destruct (Listener.isEmptyConfig _).
    + apply list_elem_of_singleton in H. done.
    + by apply elem_of_nil in H.
  - apply list_elem_of_singleton in H. by simplify_eq.
Qed.

(** A creation that fails, and not because the subscription exists, ends
    the loop with the deletion pass and status 1. *)
Lemma subscribe_all_failed cfg subs started w id c err :
  grpc_Code err <> AlreadyExists ->
  Called RunCtx (CreateSubscription id c) (Some err)
    ∈ events (Listener.subscribe_all E cfg subs started w) ->
  out (Listener.subscribe_all E cfg subs started w) = Exit 1.
Proof.
  intros Hcode. revert started w. induction subs as [|sub rest IH]; intros started w.
  - intros H. by apply elem_of_nil in H.
  - rewrite subscribe_all_cons. cbn zeta.
    destruct (answer E RunCtx
                (CreateSubscription (Listener.ID sub) (Listener.subConfig cfg sub)) w)
      as [failure w2].
    cbn [fst snd]. destruct failure as [err'|].
    + case_decide as Hexists.
      * cbn [out events prepend]. intros H.
        apply elem_of_app in H as [H|H]; [|by eapply IH].
        apply elem_of_app in H as [H|H].
        -- apply subscribing_failure in H. by simplify_eq.
        -- apply list_elem_of_singleton in H. done.
      * intros _. by rewrite give_up_run.
    + cbn [out events prepend]. intros H.
      apply elem_of_app in H as [H|H]; [|by eapply IH].
      apply elem_of_app in H as [H|H].
      * by apply subscribing_failure in H.
      * apply list_elem_of_singleton in H. done.
Qed.

(** A request to create a subscription, found in the actions of a run of
    the listener, was made by the subscription loop; when the loop exits,
    the run ends there. *)
Lemma listener_main_loop a f w id c failure :
  Called RunCtx (CreateSubscription id c) failure ∈ events (Listener.main E a f w) ->
  exists cfg subs,
    let r0 := Listener.subscribe_all E cfg subs [] w in
    Called RunCtx (CreateSubscription id c) failure ∈ events r0
    /\ forall s, out r0 = Exit s ->
                 out (Listener.main E a f w) = Exit s
                 /\ final (Listener.main E a f w) = final r0.
Proof.
  unfold Listener.main.
  set (e := Called RunCtx (CreateSubscription id c) failure).
  assert (Hnot : forall evs, Forall (fun e => late_event e = true) evs -> e ∉ evs).
  { intros evs Hevs Hin. rewrite Forall_forall in Hevs. by apply Hevs in Hin. }
  destruct (help a).
  { cbn. intros H. repeat (apply elem_of_cons in H as [?|H]; [done|]).
    by apply elem_of_nil in H. }
  destruct (String.eqb (conf a) "").
  { cbn. intros H. repeat (apply elem_of_cons in H as [?|H]; [done|]).
    by apply elem_of_nil in H. }
  destruct f as [err|err|cfg].
  { cbn. intros H. repeat (apply elem_of_cons in H as [?|H]; [done|]).
    by apply elem_of_nil in H. }
  { cbn. intros H. repeat (apply elem_of_cons in H as [?|H]; [done|]).
    by apply elem_of_nil in H. }
  destruct (normalize_all_run E (Listener.Subscriptions cfg) w)
    as [[subs0 Hr]|(format & args & Hr)].
  2:{ assert (Ho : out (Listener.normalize_all E (Listener.Subscriptions cfg) w) = Exit 1)
        by by rewrite Hr.
      rewrite (bind_Exit _ _ _ _ Ho), Hr. cbn. intros H.
      repeat (apply elem_of_cons in H as [?|H]; [done|]). by apply elem_of_nil in H. }
  rewrite (bind_result _ _ _ _ _ _ Hr), prepend_nil.
  destruct (new_client E (Listener.Project cfg)).
  { cbn. intros H. repeat (apply elem_of_cons in H as [?|H]; [done|]).
    by apply elem_of_nil in H. }
  rewrite bind_logf.
  erewrite (bind_result (client_Topics E RunCtx)) by reflexivity.
  rewrite prepend_prepend.
  set (topit := if expired RunCtx w then _ else _).
  set (all := bool_decide (length subs0 = 0%nat)).
  destruct (enumerate_run all topit subs0 w) as (Hf & He & Ho).
  destruct Ho as [Ho|[subs Ho]].
  { rewrite (bind_Exit _ _ _ _ Ho), Hf. cbn [out final events prepend].
    intros H. apply elem_of_app in H as [H|H]; [|by apply Hnot in H].
    repeat (apply elem_of_cons in H as [?|H]; [done|]). by apply elem_of_nil in H. }
  rewrite (bind_Return _ _ _ _ Ho), Hf, prepend_prepend.
  assert (Hpre : e ∉ (([Logged "available topics:" []] ++ [Called RunCtx ListTopics None])
                      ++ events (Listener.enumerate all topit subs0 w))%list).
  { intros H. apply elem_of_app in H as [H|H]; [|by apply Hnot in H].
    repeat (apply elem_of_cons in H as [?|H]; [done|]). by apply elem_of_nil in H. }
  case_bool_decide as Hlen.
  { cbn [out final events prepend bind logf emit os_Exit].
    intros H. apply elem_of_app in H as [H|H]; [done|].
    repeat (apply elem_of_cons in H as [?|H]; [done|]). by apply elem_of_nil in H. }
  intros Hin. exists cfg, subs. cbn zeta. revert Hin.
  destruct (out (Listener.subscribe_all E cfg subs [] w)) as [started|s|] eqn:Souts.
  - rewrite (bind_Return _ _ _ _ Souts), prepend_prepend. cbn [out final events prepend].
    intros Hin. split; [|done].
    apply elem_of_app in Hin as [Hin|Hin].
    + apply elem_of_app in Hin as [Hin|Hin]; [done|done].
    + exfalso. revert Hin. apply Hnot.
      apply (listener_tail E a started (final (Listener.subscribe_all E cfg subs [] w))).
  - rewrite (bind_Exit _ _ _ _ Souts). cbn [out final events prepend].
    intros Hin. apply elem_of_app in Hin as [Hin|Hin]; [done|].
    split; [done|]. by intros ? [= <-].
  - rewrite (bind_Forever _ _ _ Souts). cbn [out final events prepend].
    intros Hin. apply elem_of_app in Hin as [Hin|Hin]; [done|]. by split.
Qed.

End FailedSubscription.

(** ** What the listener asks the service for *)

Section ListenerRequests.

Variable E : env.







End ListenerRequests.

(** ** How a run of the listener ends *)

Section ListenerShutdown.

Variable E : env.



Lemma delete_each_keeps_run_done it w :
  run_done (final (Listener.delete_each E it w)) = run_done w.
Proof.
  revert w. induction it as [|[err|s] rest IH]; intros w.
  - done.
  - rewrite delete_each_error. apply IH.
  - rewrite delete_each_item. cbn zeta. cbn [final prepend].
    rewrite IH. apply answer_keeps_run_done.
Qed.

(** From the start of the receivers to the end of the run: when
    [wg.Wait()] returns, the deletion pass follows and [main] returns. *)
Lemma listener_tail_shape a started w :
  let r := (emit SignalNotify ;;
            Listener.receive started (deliveries E) ;;
            Listener.report E started ;;
            Listener.wait E a started ;;
            emit (Printed "cancelling") ;;
            Listener.deleteAllSubscriptions E ;;
            emit SignalStop ;;
            emit Closed) w in
  let w1 := final (Listener.wait E a started w) in
  match out (Listener.wait E a started w) with
  | Return _ =>
      r = Result (Return tt) (final (Listener.deleteAllSubscriptions E w1))
            ((SignalNotify :: events (Listener.receive started (deliveries E) w)
              ++ events (Listener.report E started w))
             ++ Printed "cancelling"
                :: events (Listener.deleteAllSubscriptions E w1) ++ [SignalStop; Closed])%list
  | _ => out r = Forever
  end.
Proof.
  cbn zeta. rewrite bind_emit.
  destruct (receive_run started (deliveries E) w) as (Ro & Rf & _).
  rewrite (bind_Return _ _ _ _ Ro), Rf.
  destruct (report_run E started w) as (Po & Pf & _).
  rewrite (bind_Return _ _ _ _ Po), Pf.
  destruct (wait_run E a started w) as (We & _ & _ & _ & _ & [Wo|Wo]).
  - rewrite Wo, (bind_Return _ _ _ _ Wo), We, bind_emit.
    rewrite (bind_Return _ _ _ _ (deleteAllSubscriptions_returns E _)), bind_emit.
    rewrite !prepend_prepend. unfold prepend, emit. cbn [out final events].
    f_equal. rewrite !app_nil_r. cbn [app]. by rewrite <- !app_assoc.
  - rewrite Wo, (bind_Forever _ _ _ Wo). done.
Qed.

(** A run of the listener that does not exit with a status has started
    its receivers and ends with [wg.Wait()]: when that returns, with the
    deletion pass and the return from [main]; when it does not, never. *)
Lemma listener_shutdown_facts a f w :
  let r := Listener.main E a f w in
  out r = Return tt \/ out r = Forever ->
  exists evs started w0,
    Listener.ID <$> started = spawned (events r)
    /\ let w1 := final (Listener.wait E a started w0) in
       match out (Listener.wait E a started w0) with
       | Return _ =>
           out r = Return tt
           /\ final r = final (Listener.deleteAllSubscriptions E w1)
           /\ events r
              = (evs ++ Printed "cancelling"
                        :: events (Listener.deleteAllSubscriptions E w1)
                        ++ [SignalStop; Closed])%list
       | _ => out r = Forever
       end.
Proof.
  cbn zeta. unfold Listener.main.
  destruct (help a); [by intros [?|?]|].
  destruct (String.eqb (conf a) ""); [by intros [?|?]|].
  destruct f as [err|err|cfg]; [by intros [?|?]|by intros [?|?]|].
  destruct (normalize_all_run E (Listener.Subscriptions cfg) w)
    as [[subs0 Hr]|(format & args & Hr)].
  2:{ assert (Ho : out (Listener.normalize_all E (Listener.Subscriptions cfg) w) = Exit 1)
        by by rewrite Hr.
      rewrite (bind_Exit _ _ _ _ Ho). by intros [?|?]. }
  rewrite (bind_result _ _ _ _ _ _ Hr), prepend_nil.
  destruct (new_client E (Listener.Project cfg)); [by intros [?|?]|].
  rewrite bind_logf.
  erewrite (bind_result (client_Topics E RunCtx)) by reflexivity.
  rewrite prepend_prepend.
  set (topit := if expired RunCtx w then _ else _).
  set (all := bool_decide (length subs0 = 0%nat)).
  destruct (enumerate_run all topit subs0 w) as (Hf & He & Ho).
  destruct (late_is_quiet _ He) as (_ & Hes & _ & _).
  destruct Ho as [Ho|[subs Ho]].
  { rewrite (bind_Exit _ _ _ _ Ho). by intros [?|?]. }
  rewrite (bind_Return _ _ _ _ Ho), Hf, prepend_prepend.
  case_bool_decide as Hlen; [by intros [?|?]|].
  destruct (subscribe_all_facts E cfg subs [] w) as (_ & _ & _ & So).
  destruct (out (Listener.subscribe_all E cfg subs [] w)) as [started|s|] eqn:Souts;
    [|rewrite (bind_Exit _ _ _ _ Souts); by intros [?|?]|done].
  intros _. rewrite (bind_Return _ _ _ _ Souts), prepend_prepend.
  set (w0 := final (Listener.subscribe_all E cfg subs [] w)).
  destruct (listener_tail E a started w0) as (Te & _).
  destruct (late_is_quiet _ Te) as (_ & Tes & _ & _).
  pose proof (listener_tail_shape a started w0) as Hshape. cbn zeta in Hshape.
  set (pre := ((([Logged "available topics:" []] ++ [Called RunCtx ListTopics None])
                ++ events (Listener.enumerate all topit subs0 w))
               ++ events (Listener.subscribe_all E cfg subs [] w))%list).
  exists (pre ++ SignalNotify :: events (Listener.receive started (deliveries E) w0)
              ++ events (Listener.report E started w0))%list, started, w0.
  split.
  - cbn [events prepend]. rewrite spawned_app, Tes, app_nil_r. subst pre.
    rewrite !spawned_app, Hes. cbn [app spawned]. by rewrite So.
  - cbn zeta. revert Hshape. destruct (out (Listener.wait E a started w0)); intros Hshape.
    + rewrite Hshape. cbn [out final events prepend]. split; [done|]. split; [done|].
      by rewrite <- app_assoc.
    + exact Hshape.
    + exact Hshape.
Qed.





End ListenerShutdown.

(** ** Jobs for the bus and other jobs *)

Section Jobs.

Variable E : env.

Lemma jobs_split jobs :
  (length (bus_jobs jobs) + length (other_jobs jobs))%nat = length jobs.
Proof.
  unfold bus_jobs, other_jobs.
  induction jobs as [|j rest IH]; [done|].
  simpl. destruct (Scheduler.is_pubsub j); simpl; lia.
Qed.

(** A startup in which nothing goes wrong: one topic and one entry per
    job for the bus, in the order of the jobs. *)
Lemma add_jobs_succeeds jobs topics c w :
  (forall j, j ∈ bus_jobs jobs -> cron_parse E (Scheduler.cronspec j) = None) ->
  reliable_from E w ->
  NoDup (job_topic <$> bus_jobs jobs) ->
  (forall name, name ∈ job_topic <$> bus_jobs jobs -> name ∉ bus_topics w) ->
  let r := Scheduler.add_jobs E jobs topics c w in
  out r = Return (topics ++ (job_topic <$> bus_jobs jobs),
                  c ++ (job_entry <$> bus_jobs jobs))%list
  /\ created_topics (events r) = job_topic <$> bus_jobs jobs
  /\ cron_entries (events r) = Scheduler.cronspec <$> bus_jobs jobs
  /\ bus_topics (final r) = list_to_set (job_topic <$> bus_jobs jobs) ∪ bus_topics w.
Proof.
  unfold job_topic, job_entry.
  revert topics c w. induction jobs as [|j rest IH]; intros topics c w Hparse Hrel Hnodup Hfresh.
  - cbn. rewrite !app_nil_r. repeat split; try done.
    by rewrite (left_id_L ∅ (∪)).
  - cbn zeta. rewrite add_jobs_cons. unfold bus_jobs in *. cbn [List.filter] in *.
    destruct (Scheduler.is_pubsub j) eqn:Hj; [|by apply IH].
    cbn zeta. rewrite fmap_cons in Hnodup, Hfresh. apply NoDup_cons in Hnodup as [Hnew Hnodup].
    rewrite answer_Background by done. cbn [serve].
    rewrite decide_False by (apply Hfresh, list_elem_of_here).
    cbn [fst snd]. rewrite Hparse by apply list_elem_of_here.
    cbn [out final events prepend].
    set (w2 := with_topics _ _).
    destruct (IH (topics ++ [Scheduler.Topic (Scheduler.Target j)])%list
                 (c ++ [Scheduler.Build_entry (Scheduler.cronspec j) j
                          (Scheduler.Topic (Scheduler.Target j))])%list w2)
      as (Hout & Hcreated & Hentries & Hbus).
    { intros j' Hj'. apply Hparse. by apply list_elem_of_further. }
    { eapply reliable_from_mono; [|exact Hrel]. simpl. lia. }
    { done. }
    { intros name Hname. subst w2. simpl. intros Hin.
      apply elem_of_union in Hin as [Hin|Hin].
      - apply elem_of_singleton in Hin. by subst.
      - revert Hin. apply Hfresh. by apply list_elem_of_further. }
    rewrite Hout, Hbus. cbn [created_topics cron_entries app]. rewrite Hcreated, Hentries.
    rewrite <- !app_assoc. repeat split; try done.
    subst w2. simpl. rewrite (assoc_L (∪)). f_equal. apply (comm_L (∪)).
Qed.

(** Topics are created and entries registered for the jobs for the bus
    only, in their order. *)
Lemma add_jobs_prefix jobs topics c w :
  let r := Scheduler.add_jobs E jobs topics c w in
  created_topics (events r) `prefix_of` job_topic <$> bus_jobs jobs
  /\ cron_entries (events r) `prefix_of` Scheduler.cronspec <$> bus_jobs jobs.
Proof.
  unfold job_topic. cbn zeta.
  revert topics c w. induction jobs as [|j rest IH]; intros topics c w.
  - split; apply prefix_nil.
  - rewrite add_jobs_cons. unfold bus_jobs in *. cbn [List.filter].
    destruct (Scheduler.is_pubsub j); [|apply IH]. cbn zeta. rewrite !fmap_cons.
    destruct (answer E Background _ w).1 as [err|].
    + cbn [events created_topics cron_entries].
      rewrite created_topics_stopped, cron_entries_stopped. split; apply prefix_nil.
    + destruct (cron_parse E (Scheduler.cronspec j)).
      * cbn [events created_topics cron_entries].
        rewrite created_topics_stopped, cron_entries_stopped.
        split; [apply prefix_cons|]; apply prefix_nil.
      * cbn [events prepend app created_topics cron_entries].
        split; apply prefix_cons, IH.
Qed.

(** A startup that completes has dealt with every job for the bus. *)
Lemma add_jobs_returns jobs topics c w tc :
  let r := Scheduler.add_jobs E jobs topics c w in
  out r = Return tc ->
  tc = (topics ++ (job_topic <$> bus_jobs jobs), c ++ (job_entry <$> bus_jobs jobs))%list
  /\ created_topics (events r) = job_topic <$> bus_jobs jobs
  /\ cron_entries (events r) = Scheduler.cronspec <$> bus_jobs jobs.
Proof.
  unfold job_topic, job_entry. cbn zeta.
  revert topics c w. induction jobs as [|j rest IH]; intros topics c w.
  - cbn. intros [= <-]. by rewrite !app_nil_r.
  - rewrite add_jobs_cons. unfold bus_jobs in *. cbn [List.filter].
    destruct (Scheduler.is_pubsub j); [|apply IH]. cbn zeta. rewrite !fmap_cons.
    destruct (answer E Background _ w).1 as [err|]; [done|].
    destruct (cron_parse E (Scheduler.cronspec j)); [done|].
    cbn [out events prepend app created_topics cron_entries].
    intros Hout. destruct (IH _ _ _ Hout) as (-> & -> & ->).
    by rewrite <- !app_assoc.
Qed.

End Jobs.

(** ** The phases of the scheduler *)

Section SchedulerPhases.

Variable E : env.

Lemma created_topics_none evs :
  Forall (fun e => running_event e = true) evs -> created_topics evs = [].
Proof.
  induction 1 as [|e evs He _ IH]; [done|].
  destruct e as [| | | |[] [] ?| | | | | | | | |]; done.
Qed.

Lemma cron_entries_none evs :
  Forall (fun e => running_event e = true) evs -> cron_entries evs = [].
Proof.
  induction 1 as [|e evs He _ IH]; [done|].
  destruct e as [| | | |[] [] ?| | | | | | | | |]; done.
Qed.

Lemma running_is_scheduler evs :
  Forall (fun e => running_event e = true) evs ->
  Forall (fun e => scheduler_event e = true) evs.
Proof.
  intros H. eapply Forall_impl; [exact H|]. intros e.
  destruct e as [| | | |[] [] ?| | | | | | | | |]; done.
Qed.

Lemma startup_is_scheduler evs :
  Forall (fun e => startup_event e = true) evs ->
  Forall (fun e => scheduler_event e = true) evs
  /\ publications evs = [].
Proof.
  induction 1 as [|e evs He _ [IH1 IH2]]; [by split|].
  destruct e as [| | | |[] [] ?| | | | | | | | |]; try done; cbn;
    by (split; [constructor|]).
Qed.

Lemma publications_app evs evs' :
  publications (evs ++ evs') = (publications evs ++ publications evs')%list.
Proof.
  induction evs as [|e evs IH]; [done|].
  simpl. rewrite IH. by repeat case_match.
Qed.

(** The function of an entry: one publication, and a line in the log
    whether it succeeds or not. *)
Lemma publish_run j t w :
  Scheduler.publish E j t w =
    let a := answer E Background (Publish t (Scheduler.Payload j)) w in
    Result (Return tt) a.2
      [Called Background (Publish t (Scheduler.Payload j)) a.1;
       match a.1 with
       | Some err => Logged "failed to publish %q: %v" [AStr (Scheduler.Name j); AErr err]
       | None => Logged "published %q id=%s" [AStr (Scheduler.Name j); ANat (next_id w)]
       end].
Proof.
  unfold Scheduler.publish, topic_Publish. cbn zeta.
  unfold bind, request, ret, logf, emit, prepend.
  by destruct (answer E Background (Publish t (Scheduler.Payload j)) w) as [[err|] w2].
Qed.

Lemma run_facts c due w :
  let r := Scheduler.run E c due w in
  out r = Return tt
  /\ Forall (fun e => running_event e = true) (events r)
  /\ bus_topics (final r) = bus_topics w
  /\ bus_subs (final r) = bus_subs w
  /\ publications (events r) = fired c due
  /\ deleted_topics (events r) = []
  /\ (Printed "cancelling" ∉ events r).
Proof.
  cbn zeta. revert w. induction due as [|i rest IH]; intros w.
  - cbn. split_and!; try done. apply not_elem_of_nil.
  - cbn [Scheduler.run fired]. unfold Scheduler.fire.
    destruct (c !! i) as [e|].
    + rewrite (bind_result _ _ _ _ _ _ (publish_run _ _ _)). cbn zeta.
      pose proof (answer_keeps_topics E Background
                    (Publish (Scheduler.entry_topic e)
                       (Scheduler.Payload (Scheduler.entry_job e))) w I) as Htopics.
      pose proof (answer_keeps_subs E Background
                    (Publish (Scheduler.entry_topic e)
                       (Scheduler.Payload (Scheduler.entry_job e))) w I) as Hsubs.
      destruct (answer E Background _ w) as [failure w2]. cbn [fst snd] in *.
      destruct (IH w2) as (Ho & He & Ht & Hs & Hp & Hd & Hc).
      cbn [out final events prepend app publications deleted_topics].
      rewrite Ht, Hs, Hp, Hd, Htopics, Hsubs.
      assert (Hlog : exists format args,
                 match failure with
                 | Some err =>
                     Logged "failed to publish %q: %v"
                       [AStr (Scheduler.Name (Scheduler.entry_job e)); AErr err]
                 | None =>
                     Logged "published %q id=%s"
                       [AStr (Scheduler.Name (Scheduler.entry_job e)); ANat (next_id w)]
                 end = Logged format args
                 /\ format <> "cancelling").
      { destruct failure; eexists _, _; by split. }
      destruct Hlog as (format & args & -> & Hformat).
      cbn [deleted_topics publications].
      split; [done|]. split; [by repeat constructor|].
      split; [done|]. split; [done|]. split; [done|]. split; [done|].
      intros Hin. apply elem_of_cons in Hin as [?|Hin]; [done|].
      apply elem_of_cons in Hin as [?|Hin]; [done|done].
    + rewrite bind_ret. apply IH.
Qed.

Lemma await_facts a w :
  events (Scheduler.await E a w) = []
  /\ final (Scheduler.await E a w) = w
  /\ (out (Scheduler.await E a w) = Return tt \/ out (Scheduler.await E a w) = Forever)
  /\ (interrupt E = false -> duration a = 0 -> out (Scheduler.await E a w) = Forever)
  /\ (interrupt E = true \/ duration a <> 0 -> out (Scheduler.await E a w) = Return tt).
Proof.
  unfold Scheduler.await. destruct (interrupt E).
  - split_and!; auto. done.
  - destruct (Z.eqb_spec (duration a) 0).
    + split_and!; auto. by intros [?|?].
    + split_and!; auto. done.
Qed.

Lemma delete_topics_facts topics w :
  let r := Scheduler.delete_topics E topics w in
  Forall (fun e => running_event e = true) (events r)
  /\ bus_subs (final r) = bus_subs w
  /\ (out r = Return tt \/ out r = Exit 1)
  /\ publications (events r) = []
  /\ deleted_topics (events r) `prefix_of` topics.
Proof.
  cbn zeta. revert w. induction topics as [|t rest IH]; intros w.
  - cbn. split_and!; auto.
  - rewrite delete_topics_cons. cbn zeta.
    pose proof (answer_keeps_subs E Background (DeleteTopic t) w I) as Hsubs.
    destruct (answer E Background (DeleteTopic t) w) as [[err|] w2]; cbn [fst snd] in *.
    + cbn [out final events publications deleted_topics].
      split; [by repeat constructor|]. split; [done|]. split; [by right|].
      split; [done|]. apply prefix_cons, prefix_nil.
    + destruct (IH w2) as (He & Hs & Ho & Hp & Hd).
      cbn [out final events prepend app publications deleted_topics].
      split_and!; try done.
      * by repeat constructor.
      * congruence.
      * by apply prefix_cons.
Qed.

Lemma add_jobs_more jobs topics c w :
  let r := Scheduler.add_jobs E jobs topics c w in
  bus_subs (final r) = bus_subs w
  /\ ((exists tc, out r = Return tc) \/ out r = Exit 1).
Proof.
  cbn zeta. revert topics c w. induction jobs as [|j rest IH]; intros topics c w.
  - split; [done|]. left. by eexists.
  - rewrite add_jobs_cons. destruct (Scheduler.is_pubsub j); [|apply IH]. cbn zeta.
    pose proof (answer_keeps_subs E Background
                  (CreateTopic (Scheduler.Topic (Scheduler.Target j))) w I) as Hsubs.
    destruct (answer E Background _ w) as [[err|] w2]; cbn [fst snd] in *.
    + split; [done|]. by right.
    + destruct (cron_parse E (Scheduler.cronspec j)).
      * split; [done|]. by right.
      * cbn [out final prepend]. destruct (IH (topics ++ [Scheduler.Topic (Scheduler.Target j)])%list
                    (c ++ [Scheduler.Build_entry (Scheduler.cronspec j) j
                             (Scheduler.Topic (Scheduler.Target j))])%list w2) as [IHs IHo].
        split; [congruence|done].
Qed.

End SchedulerPhases.

Section SchedulerMain.

Variable E : env.

Local Ltac forall_events :=
  repeat first [ assumption | apply Forall_nil_2 | apply Forall_app_2
               | (apply Forall_cons_2; [done|]) ].

Local Ltac absent :=
  let H := fresh in
  intros H; repeat (apply elem_of_cons in H as [?|H]; [done|]); by apply elem_of_nil in H.

(** From the start of the cron engine to the end of the run. *)
Lemma scheduler_tail a topics c w :
  let r := (emit SignalNotify ;;
            emit CronStarted ;;
            Scheduler.run E c (firings E) ;;
            Scheduler.await E a ;;
            emit (Printed "cancelling") ;;
            emit CronStopped ;;
            Scheduler.delete_topics E topics ;;
            emit SignalStop ;;
            emit Closed) w in
  Forall (fun e => running_event e = true) (events r)
  /\ bus_subs (final r) = bus_subs w
  /\ (out r = Return tt \/ out r = Forever \/ out r = Exit 1)
  /\ deleted_topics (events r) `prefix_of` topics
  /\ publications (events r) = fired c (firings E)
  /\ (interrupt E = false -> duration a = 0 ->
      out r = Forever /\ deleted_topics (events r) = []
      /\ (Printed "cancelling" ∉ events r)).
Proof.
  cbn zeta. rewrite !bind_emit, prepend_prepend.
  destruct (run_facts E c (firings E) w) as (Ro & Re & _ & Rs & Rp & Rd & Rc).
  rewrite (bind_Return _ _ _ _ Ro), prepend_prepend.
  set (w1 := final (Scheduler.run E c (firings E) w)) in *.
  destruct (await_facts E a w1) as (Ae & Af & Ao & Aforever & _).
  destruct Ao as [Ao|Ao].
  - rewrite (bind_Return _ _ _ _ Ao), Ae, Af, !bind_emit, !prepend_prepend.
    destruct (delete_topics_facts E topics w1) as (De & Ds & Do & Dp & Dd).
    assert (Hno : interrupt E = false -> duration a = 0 -> False).
    { intros Hi Hd. rewrite (Aforever Hi Hd) in Ao. done. }
    destruct Do as [Do|Do].
    + rewrite (bind_Return _ _ _ _ Do), !prepend_prepend.
      cbn [out final events prepend bind emit].
      rewrite !deleted_topics_app, !publications_app, Rp, Rd, Dp, Ds, Rs.
      cbn [app deleted_topics publications]. rewrite !app_nil_r.
      split; [forall_events|].
      split_and!; auto. intros Hi Hd. by destruct (Hno Hi Hd).
    + rewrite (bind_Exit _ _ _ _ Do).
      cbn [out final events prepend].
      rewrite !deleted_topics_app, !publications_app, Rp, Rd, Dp, Ds, Rs.
      cbn [app deleted_topics publications]. rewrite !app_nil_r.
      split; [forall_events|].
      split_and!; auto. intros Hi Hd. by destruct (Hno Hi Hd).
  - rewrite (bind_Forever _ _ _ Ao), Ae, Af.
    cbn [out final events prepend].
    rewrite !deleted_topics_app, !publications_app, Rp, Rd, Rs.
    cbn [app deleted_topics publications]. rewrite !app_nil_r.
    split; [forall_events|].
    split_and!; auto; [apply prefix_nil|].
    intros _ _. split_and!; try done.
    intros Hin. apply elem_of_cons in Hin as [?|Hin]; [done|].
    apply elem_of_cons in Hin as [?|Hin]; [done|done].
Qed.

(** What holds of every run of the scheduler. *)
Lemma scheduler_main_facts a f w :
  let r := Scheduler.main E a f w in
  Forall (fun e => scheduler_event e = true) (events r)
  /\ bus_subs (final r) = bus_subs w
  /\ expected_outcome (out r)
  /\ (out r = Exit 2 <-> help a = false /\ conf a = "")
  /\ (out r = Exit 0 <-> help a = true)
  /\ deleted_topics (events r) `prefix_of` created_topics (events r)
  /\ (interrupt E = false -> duration a = 0 ->
      out r <> Return tt /\ deleted_topics (events r) = []
      /\ (Printed "cancelling" ∉ events r)).
Proof.
  cbn zeta. unfold Scheduler.main, expected_outcome.
  assert (Hnot : forall evs : list event,
             Forall (fun e => startup_event e = true) evs -> Printed "cancelling" ∉ evs).
  { intros evs Hevs Hin. rewrite Forall_forall in Hevs. by apply Hevs in Hin. }
  destruct (help a).
  { cbn. split_and!; try done; try (by repeat constructor); auto.
    all: try (split; [done|]; by intros [? _]).
    all: try (intros _ _; split_and!; try done; absent). }
  destruct (String.eqb_spec (conf a) "") as [Hconf|Hconf].
  { cbn. split_and!; try done; try (by repeat constructor); auto.
    all: try (intros _ _; split_and!; try done; absent). }
  assert (Hno2 : forall o : outcome unit,
             o <> Exit 2 -> o = Exit 2 <-> false = false /\ conf a = "").
  { intros o Ho. split; [done|]. by intros [_ ?]. }
  assert (Hno0 : forall o : outcome unit, o <> Exit 0 -> o = Exit 0 <-> false = true).
  { intros o Ho. by split. }
  destruct f as [err|err|cfg].
  { cbn. split_and!; try done; try (by repeat constructor); auto;
      try (by apply Hno2); try (by apply Hno0).
    all: try (intros _ _; split_and!; try done; absent). }
  { cbn. split_and!; try done; try (by repeat constructor); auto;
      try (by apply Hno2); try (by apply Hno0).
    all: try (intros _ _; split_and!; try done; absent). }
  destruct (new_client E (Scheduler.Project cfg)).
  { cbn. split_and!; try done; try (by repeat constructor); auto;
      try (by apply Hno2); try (by apply Hno0).
    all: try (intros _ _; split_and!; try done; absent). }
  pose proof (add_jobs_events E (Scheduler.Jobs cfg) [] [] w) as Se.
  destruct (startup_is_scheduler _ Se) as [Ss Sp].
  pose proof (startup_deletes_nothing _ Se) as Sd.
  destruct (add_jobs_more E (Scheduler.Jobs cfg) [] [] w) as [Sb [[tc So]|So]].
  - rewrite (bind_Return _ _ _ _ So).
    destruct (add_jobs_returns E (Scheduler.Jobs cfg) [] [] w tc So) as (Htc & Hcreated & _).
    destruct (scheduler_tail a tc.1 tc.2
                (final (Scheduler.add_jobs E (Scheduler.Jobs cfg) [] [] w)))
      as (Te & Ts & To & Td & _ & Tforever).
    cbn [out final events prepend].
    rewrite !deleted_topics_app, !created_topics_app, Sd, Ts, Sb.
    rewrite (created_topics_none _ Te), app_nil_r.
    cbn [app]. rewrite Hcreated.
    replace (job_topic <$> bus_jobs (Scheduler.Jobs cfg)) with tc.1 by by rewrite Htc.
    split; [apply Forall_app_2; [done|by apply running_is_scheduler]|].
    split; [done|]. split; [destruct To as [->|[->| ->]]; auto|].
    split; [apply Hno2; by destruct To as [->|[->| ->]]|].
    split; [apply Hno0; by destruct To as [->|[->| ->]]|].
    split; [done|].
    intros Hi Hd. destruct (Tforever Hi Hd) as (-> & Hdel & Hc).
    split_and!; try done.
    intros Hin. apply elem_of_app in Hin as [Hin|Hin]; [by apply Hnot in Hin|done].
  - rewrite (bind_Exit _ _ _ _ So). cbn [out final events].
    rewrite Sd.
    split_and!; try done; auto; try (by apply Hno2); try (by apply Hno0);
      try apply prefix_nil.
    all: try (intros _ _; split_and!; try done; by apply Hnot).
Qed.

End SchedulerMain.

(** ** A deletion that fails in the scheduler's teardown *)

Section SchedulerTeardown.

Variable E : env.

Local Ltac locate H :=
  repeat match type of H with
         | _ ∈ (_ ++ _)%list => apply elem_of_app in H as [H|H]
         | _ ∈ _ :: _ => apply elem_of_cons in H as [?|H]; [done|]
         | _ ∈ [] => by apply elem_of_nil in H
         end.

Lemma in_deleted_topics ctx t failure evs :
  Called ctx (DeleteTopic t) failure ∈ evs -> t ∈ deleted_topics evs.
Proof.
  induction evs as [|e evs IH]; [by intros ?%elem_of_nil|].
  intros [<-|Hin]%elem_of_cons.
  - apply list_elem_of_here.
  - specialize (IH Hin). destruct e as [| | | |? [] ?| | | | | | | | |]; cbn; try done.
    by apply list_elem_of_further.
Qed.

(** The deletion that fails is the last one the loop asks for. *)
Lemma delete_topics_failure topics w t err :
  Called Background (DeleteTopic t) (Some err)
    ∈ events (Scheduler.delete_topics E topics w) ->
  out (Scheduler.delete_topics E topics w) = Exit 1
  /\ Logged "failed to delete topic: %v" [AErr err]
       ∈ events (Scheduler.delete_topics E topics w)
  /\ exists before rest,
       topics = (before ++ t :: rest)%list
       /\ deleted_topics (events (Scheduler.delete_topics E topics w))
          = (before ++ [t])%list.
Proof.
  revert w. induction topics as [|t0 rest IH]; intros w.
  - by intros ?%elem_of_nil.
  - rewrite delete_topics_cons. cbn zeta.
    destruct (answer E Background (DeleteTopic t0) w) as [[err0|] w2]; cbn [fst snd].
    + cbn [out events]. intros Hin.
      apply elem_of_cons in Hin as [?|Hin]; [done|].
      apply elem_of_cons in Hin as [Heq|Hin].
      * simplify_eq. split; [done|]. split.
        { do 2 apply list_elem_of_further. apply list_elem_of_here. }
        by exists [], rest.
      * apply list_elem_of_singleton in Hin. done.
    + cbn [out events prepend]. intros Hin.
      apply elem_of_app in Hin as [Hin|Hin].
      { apply elem_of_cons in Hin as [?|Hin]; [done|].
        apply list_elem_of_singleton in Hin. done. }
      destruct (IH w2 Hin) as (Hout & Hlog & before & rest' & -> & Hdel).
      split; [done|]. split; [apply elem_of_app; by right|].
      exists (t0 :: before), rest'. split; [done|].
      cbn [app deleted_topics]. by rewrite Hdel.
Qed.

(** A deletion that fails in a run of the scheduler ends the run with
    status 1; the topics created after the one it was asked for are not
    attempted. *)
Lemma scheduler_main_deletion_failure a f w t err :
  Called Background (DeleteTopic t) (Some err) ∈ events (Scheduler.main E a f w) ->
  out (Scheduler.main E a f w) = Exit 1
  /\ Logged "failed to delete topic: %v" [AErr err] ∈ events (Scheduler.main E a f w)
  /\ exists before rest,
       created_topics (events (Scheduler.main E a f w)) = (before ++ t :: rest)%list
       /\ deleted_topics (events (Scheduler.main E a f w)) = (before ++ [t])%list.
Proof.
  unfold Scheduler.main.
  destruct (help a).
  { cbn. intros H. repeat (apply elem_of_cons in H as [?|H]; [done|]). by apply elem_of_nil in H. }
  destruct (String.eqb (conf a) "").
  { cbn. intros H. repeat (apply elem_of_cons in H as [?|H]; [done|]). by apply elem_of_nil in H. }
  destruct f as [e|e|cfg].
  { cbn. intros H. repeat (apply elem_of_cons in H as [?|H]; [done|]). by apply elem_of_nil in H. }
  { cbn. intros H. repeat (apply elem_of_cons in H as [?|H]; [done|]). by apply elem_of_nil in H. }
  destruct (new_client E (Scheduler.Project cfg)).
  { cbn. intros H. repeat (apply elem_of_cons in H as [?|H]; [done|]). by apply elem_of_nil in H. }
  pose proof (add_jobs_events E (Scheduler.Jobs cfg) [] [] w) as Hev.
  assert (Hstart : Called Background (DeleteTopic t) (Some err)
                     ∉ events (Scheduler.add_jobs E (Scheduler.Jobs cfg) [] [] w)).
  { intros Hin. rewrite Forall_forall in Hev. by apply Hev in Hin. }
  assert (Hnone : deleted_topics (events (Scheduler.add_jobs E (Scheduler.Jobs cfg) [] [] w))
                  = []).
  { clear Hstart. induction Hev as [|e evs He _ IH]; [done|].
    destruct e as [| | | |[] [] ?| | | | | | | | |]; done. }
  destruct (out (Scheduler.add_jobs E (Scheduler.Jobs cfg) [] [] w)) as [tc|s|] eqn:Hout.
  2:{ rewrite (bind_Exit _ _ _ _ Hout). cbn [events]. by intros ?%Hstart. }
  2:{ rewrite (bind_Forever _ _ _ Hout). cbn [events]. by intros ?%Hstart. }
  rewrite (bind_Return _ _ _ _ Hout).
  destruct (add_jobs_returns E _ _ _ _ _ Hout) as (Htc & Hcreated & _).
  set (w0 := final (Scheduler.add_jobs E (Scheduler.Jobs cfg) [] [] w)).
  rewrite !bind_emit, prepend_prepend.
  destruct (run_facts E tc.2 (firings E) w0) as (Ro & Re & _ & _ & _ & Rd & _).
  pose proof (created_topics_none _ Re) as Rc.
  rewrite (bind_Return _ _ _ _ Ro), prepend_prepend.
  set (w1 := final (Scheduler.run E tc.2 (firings E) w0)).
  assert (Hrunning : Called Background (DeleteTopic t) (Some err)
                       ∉ events (Scheduler.run E tc.2 (firings E) w0)).
  { intros Hin. apply in_deleted_topics in Hin. rewrite Rd in Hin.
    by apply elem_of_nil in Hin. }
  destruct (await_facts E a w1) as (Ae & Af & [Ao|Ao] & _).
  2:{ rewrite (bind_Forever _ _ _ Ao), Ae. cbn [events prepend]. intros Hin.
      exfalso. locate Hin; [by apply Hstart in Hin|by apply Hrunning in Hin]. }
  rewrite (bind_Return _ _ _ _ Ao), Ae, Af, !bind_emit, !prepend_prepend.
  destruct (out (Scheduler.delete_topics E tc.1 w1)) as [[]|s|] eqn:Do.
  - rewrite (bind_Return _ _ _ _ Do). cbn [events prepend bind emit out final].
    intros Hin. exfalso.
    locate Hin; [by apply Hstart in Hin|by apply Hrunning in Hin|].
    destruct (delete_topics_failure _ _ _ _ Hin) as (Hexit & _). by rewrite Hexit in Do.
  - rewrite (bind_Exit _ _ _ _ Do). cbn [events prepend out]. intros Hin.
    locate Hin; [by apply Hstart in Hin|by apply Hrunning in Hin|].
    destruct (delete_topics_failure _ _ _ _ Hin)
      as (Hexit & Hlog & before & rest & Htopics & Hdel).
    rewrite Hexit in Do. injection Do as <-.
    split; [done|]. split.
    { rewrite !elem_of_app. tauto. }
    exists before, rest.
    apply (f_equal fst) in Htc. cbn [fst app] in Htc.
    split.
    + destruct (delete_topics_facts E tc.1 w1) as (De & _).
      rewrite !created_topics_app, Hcreated, Rc, (created_topics_none _ De).
      cbn [created_topics app]. rewrite !app_nil_r. by rewrite <- Htc.
    + rewrite !deleted_topics_app, Hnone, Rd, Hdel. by cbn [deleted_topics app].
  - rewrite (bind_Forever _ _ _ Do). cbn [events prepend]. intros Hin.
    locate Hin; [by apply Hstart in Hin|by apply Hrunning in Hin|].
    destruct (delete_topics_failure _ _ _ _ Hin) as (Hexit & _). by rewrite Hexit in Do.
Qed.

End SchedulerTeardown.

(** ** A listener without configured subscriptions *)

Section AllTopics.

Variable E : env.

(** The enumeration adds one subscription per topic it is told of. *)
Lemma enumerate_all ids subs w :
  Listener.enumerate true (inr <$> ids) subs w
  = Result (Return (subs ++ (synthesized <$> ids))%list) w (adding ids).
Proof.
  revert subs. induction ids as [|id rest IH]; intros subs.
  - simpl. by rewrite app_nil_r.
  - rewrite fmap_cons. cbn [Listener.enumerate].
    rewrite !bind_logf, IH, prepend_prepend. unfold prepend. simpl.
    by rewrite <- app_assoc.
Qed.

Lemma requested_subscribing cfg sub failure :
  requested_subscriptions (subscribing cfg sub failure)
  = [(Listener.ID sub, Listener.subConfig cfg sub)].
Proof. unfold subscribing. by destruct (Listener.isEmptyConfig _). Qed.

(** The service on a request to create a subscription to a topic that
    exists. *)
Lemma serve_CreateSubscription cfg sub w :
  Listener.Topic sub ∈ bus_topics w ->
  serve (CreateSubscription (Listener.ID sub) (Listener.subConfig cfg sub)) w
  = match bus_subs w !! Listener.ID sub with
    | Some _ => (Some (EStatus AlreadyExists), w)
    | None => (None, with_subs (<[Listener.ID sub := Listener.Topic sub]> (bus_subs w)) w)
    end.
Proof.
  intros Hin. cbn [serve]. destruct (bus_subs w !! Listener.ID sub); [done|].
  unfold Listener.subConfig. cbn [pubsub.Topic pubsub.with_Topic].
  by rewrite decide_True.
Qed.

(** When no request is lost and the topics exist, the loop asks for
    the creation of every subscription and comes to its end. *)
Lemma subscribe_all_requests cfg subs started w :
  run_done w = false ->
  reliable_from E w ->
  (forall sub, sub ∈ subs -> Listener.Topic sub ∈ bus_topics w) ->
  let r := Listener.subscribe_all E cfg subs started w in
  (exists started', out r = Return started')
  /\ requested_subscriptions (events r)
     = (fun sub => (Listener.ID sub, Listener.subConfig cfg sub)) <$> subs.
Proof.
  revert started w. induction subs as [|sub rest IH]; intros started w Hrun Hrel Htopics.
  - cbn. split; [by eexists|done].
  - cbn zeta. rewrite subscribe_all_cons. cbn zeta.
    assert (Ha : answer E RunCtx (CreateSubscription (Listener.ID sub)
                                    (Listener.subConfig cfg sub)) w
                 = serve (CreateSubscription (Listener.ID sub)
                            (Listener.subConfig cfg sub)) (counted w)).
    { unfold answer. simpl. by rewrite Hrun, (Hrel (rpcs w)). }
    rewrite Ha, serve_CreateSubscription by (apply Htopics, list_elem_of_here).
    assert (Hrest : forall sub', sub' ∈ rest -> Listener.Topic sub' ∈ bus_topics w).
    { intros sub' Hin. by apply Htopics, list_elem_of_further. }
    destruct (bus_subs (counted w) !! Listener.ID sub) eqn:Hid.
    + cbn [fst snd]. rewrite decide_True by done.
      destruct (IH started (counted w)) as [Hout Hreq]; try done.
      { eapply reliable_from_mono; [|exact Hrel]. simpl. lia. }
      cbn [out events prepend]. split; [done|].
      by rewrite !requested_subscriptions_app, requested_subscribing, Hreq.
    + cbn [fst snd].
      destruct (IH (started ++ [sub])%list
                   (with_subs (<[Listener.ID sub := Listener.Topic sub]> (bus_subs (counted w)))
                      (counted w))) as [Hout Hreq]; try done.
      { eapply reliable_from_mono; [|exact Hrel]. simpl. lia. }
      cbn [out events prepend]. split; [done|].
      by rewrite !requested_subscriptions_app, requested_subscribing, Hreq.
Qed.

End AllTopics.

Section ListenerRunning.

Variable E : env.

Let quiet (e : event) : Prop := is_create_subscription e = false.

Lemma receive_quiet started ms w : Forall quiet (events (Listener.receive started ms w)).
Proof.
  revert w. induction ms as [|[id m] rest IH]; intros w; [constructor|].
  cbn [Listener.receive]. apply events_bind_Forall; [|intros; apply IH].
  case_bool_decide; [|constructor].
  apply events_bind_Forall; [|intros]; by repeat constructor.
Qed.

Lemma report_quiet started w : Forall quiet (events (Listener.report E started w)).
Proof.
  revert w. induction started as [|sub rest IH]; intros w; [constructor|].
  cbn [Listener.report]. apply events_bind_Forall; [|intros; apply IH].
  destruct (receive_error E (Listener.ID sub)); [|constructor].
  case_decide; by repeat constructor.
Qed.

Lemma wait_quiet a started w : Forall quiet (events (Listener.wait E a started w)).
Proof.
  unfold Listener.wait. destruct (Listener.live E started); [constructor|].
  destruct (run_done w); [constructor|].
  destruct (interrupt E || negb (duration a =? 0)); constructor.
Qed.

Lemma deleteAllSubscriptions_quiet w :
  Forall quiet (events (Listener.deleteAllSubscriptions E w)).
Proof.
  rewrite deleteAllSubscriptions_unfold. cbn [events prepend].
  constructor; [done|].
  generalize (subs_iter E (bus_subs w)). intros it.
  revert w. induction it as [|[err|s] rest IH]; intros w.
  - constructor.
  - rewrite delete_each_error. constructor; [done|apply IH].
  - rewrite delete_each_item. cbn zeta. cbn [events prepend].
    apply Forall_app. split; [|apply IH].
    destruct (answer E Background (DeleteSubscription s) w).1; by repeat constructor.
Qed.

(** From the subscription loop to the end of a run. *)
Lemma running_quiet a cfg subs w :
  requested_subscriptions
    (events ((started <- Listener.subscribe_all E cfg subs [] ;;
              emit SignalNotify ;;
              Listener.receive started (deliveries E) ;;
              Listener.report E started ;;
              Listener.wait E a started ;;
              emit (Printed "cancelling") ;;
              Listener.deleteAllSubscriptions E ;;
              emit SignalStop ;;
              emit Closed) w))
  = requested_subscriptions (events (Listener.subscribe_all E cfg subs [] w)).
Proof.
  unfold bind at 1.
  destruct (out (Listener.subscribe_all E cfg subs [] w)) as [started| |]; try done.
  cbn [events prepend]. rewrite requested_subscriptions_app.
  match goal with
  | |- (_ ++ requested_subscriptions ?evs)%list = _ =>
      rewrite (requested_subscriptions_none evs); [by rewrite app_nil_r|]
  end.
  apply events_bind_Forall; [by repeat constructor|intros ? ?].
  apply events_bind_Forall; [apply receive_quiet|intros ? ?].
  apply events_bind_Forall; [apply report_quiet|intros ? ?].
  apply events_bind_Forall; [apply wait_quiet|intros ? ?].
  apply events_bind_Forall; [by repeat constructor|intros ? ?].
  apply events_bind_Forall; [apply deleteAllSubscriptions_quiet|intros ? ?].
  apply events_bind_Forall; [by repeat constructor|intros ? ?].
  by repeat constructor.
Qed.

End ListenerRunning.

(** * The claims *)

(** ** C1: what the deletion pass removes *)

(** C1, as the claim has it, fails: a subscription that was there before
    the run, whose creation was answered with AlreadyExists, is deleted by
    the pass at shutdown. *)
Lemma preexisting_subscription_is_deleted :
  let r := Listener.main calm plain (Decoded one_subscription) taken_project in
  bus_subs taken_project !! "s" = Some "a"
  /\ In (Called RunCtx (CreateSubscription "s" (pubsub.with_Topic pubsub.zero "a"))
           (Some (EStatus AlreadyExists))) (events r)
  /\ out r = Return tt
  /\ deleted_subscriptions (events r) = ["s"]
  /\ bus_subs (final r) !! "s" = None.
Proof.
  cbn zeta. split; [by vm_compute|]. split.
  - vm_compute. do 5 right. left. reflexivity.
  - split; [by vm_compute|]. split; by vm_compute.
Qed.

(** C1, amended: the deletion pass [deleteAllSubscriptions] asks for the
    deletion of every subscription the project lists, once each, whether
    this process created it or not.  A subscription whose creation is
    answered with AlreadyExists gets no receiver and stays on the bus, and
    the pass deletes it with the others: when the listing is complete and
    no request is lost, no subscription is left after the pass, and so
    after every run of the listener that returns. *)
Theorem deletion_pass_deletes_every_listed_subscription (E : env) :
  (forall m, faithful (subs_iter E m) (dom m)) ->
  (forall n, rpc_fault E n = None) ->
  (forall w,
      let r := Listener.deleteAllSubscriptions E w in
      out r = Return tt
      /\ NoDup (deleted_subscriptions (events r))
      /\ (forall id, id ∈ deleted_subscriptions (events r) <-> is_Some (bus_subs w !! id))
      /\ bus_subs (final r) = ∅)
  /\ (forall cfg sub rest started w,
         is_Some (bus_subs w !! Listener.ID sub) ->
         run_done w = false ->
         Listener.subscribe_all E cfg (sub :: rest) started w
         = prepend
             (subscribing cfg sub (Some (EStatus AlreadyExists))
              ++ [Logged "subscription %q already exists" [AStr (Listener.Topic sub)]])
             (Listener.subscribe_all E cfg rest started (counted w)))
  /\ (forall a f w,
         out (Listener.main E a f w) = Return tt ->
         bus_subs (final (Listener.main E a f w)) = ∅).
Proof.
  intros Hlist Hrel. split; [|split].
  - intros w. cbn zeta.
    split; [apply deleteAllSubscriptions_returns|].
    rewrite deleteAllSubscriptions_deletions.
    destruct (Hlist (bus_subs w)) as (l & Hl & Hnodup & Hin).
    rewrite Hl, items_inr.
    split; [done|]. split.
    + intros id. by rewrite Hin, elem_of_dom.
    + apply deleteAllSubscriptions_clears; [apply Hlist|]. intros n _. apply Hrel.
  - intros cfg sub rest started w [t Ht] Hrun.
    rewrite subscribe_all_cons. cbn zeta.
    assert (Ha : answer E RunCtx
                   (CreateSubscription (Listener.ID sub) (Listener.subConfig cfg sub)) w
                 = (Some (EStatus AlreadyExists), counted w)).
    { unfold answer. simpl. rewrite Hrun, Hrel. simpl. by rewrite Ht. }
    rewrite Ha. cbn [fst snd]. by rewrite decide_True.
  - intros a f w Hret.
    destruct (main_returns_after_deleteAll E a f w Hret) as [w' ->].
    apply deleteAllSubscriptions_clears; [apply Hlist|]. intros n _. apply Hrel.
Qed.

Lemma deletion_pass_deletes_every_listed_subscription_witness :
  (forall m, faithful (subs_iter calm m) (dom m))
  /\ (forall n, rpc_fault calm n = None)
  /\ out (Listener.main calm plain (Decoded one_subscription) taken_project) = Return tt
  /\ bus_subs (final (Listener.main calm plain (Decoded one_subscription) taken_project)) = ∅.
Proof.
  split; [exact calm_lists_subscriptions|]. split; [reflexivity|].
  split; [by vm_compute|].
  apply (deletion_pass_deletes_every_listed_subscription calm
           calm_lists_subscriptions (fun _ => eq_refl)).
  by vm_compute.
Defined.

(** ** C2: failures during teardown *)

(** C2, as the claim has it, fails for the scheduler: with two topics and
    a first deletion that fails, the process ends with status 1, the
    deletion of the second topic is never requested and the topic stays. *)
Lemma failed_topic_deletion_aborts_teardown :
  let r := Scheduler.main (failing 2 (EStatus Unavailable)) plain (Decoded two_jobs)
             empty_project in
  created_topics (events r) = ["t1"; "t2"]
  /\ In (Called Background (DeleteTopic "t1") (Some (EStatus Unavailable))) (events r)
  /\ out r = Exit 1
  /\ deleted_topics (events r) = ["t1"]
  /\ bool_decide ("t2" ∈ bus_topics (final r)) = true.
Proof.
  cbn zeta. split; [by vm_compute|]. split.
  - vm_compute. do 9 right. left. reflexivity.
  - split; [by vm_compute|]. split; by vm_compute.
Qed.

(** C2, amended: in the listener's teardown, over a listing of the
    subscriptions that yields no error, a deletion that fails is logged and
    the deletion of every other subscription listed is requested all the
    same, and the pass returns; every run of the listener that returns has
    ended with this pass.  In the scheduler's teardown the first deletion
    that fails is logged and ends the process with status 1: the topics
    after it are not attempted, in the loop and so in every run of the
    scheduler. *)
Theorem teardown_on_deletion_failure (E : env) :
  (forall ids w,
      subs_iter E (bus_subs w) = inr <$> ids ->
      let r := Listener.deleteAllSubscriptions E w in
      out r = Return tt
      /\ deleted_subscriptions (events r) = ids
      /\ forall s err,
           Called Background (DeleteSubscription s) (Some err) ∈ events r ->
           Logged "failed to delete subscription %q: %v" [AStr s; AErr err] ∈ events r)
  /\ (forall a f w,
         let r := Listener.main E a f w in
         out r = Return tt ->
         exists evs w1,
           events r
           = (evs ++ Printed "cancelling"
                     :: events (Listener.deleteAllSubscriptions E w1)
                     ++ [SignalStop; Closed])%list
           /\ final r = final (Listener.deleteAllSubscriptions E w1))
  /\ (forall topics w,
         let r := Scheduler.delete_topics E topics w in
         (out r = Return tt
          /\ deleted_topics (events r) = topics
          /\ forall t err, Called Background (DeleteTopic t) (Some err) ∉ events r)
         \/ (exists before t rest err,
               topics = (before ++ t :: rest)%list
               /\ out r = Exit 1
               /\ deleted_topics (events r) = (before ++ [t])%list
               /\ Called Background (DeleteTopic t) (Some err) ∈ events r
               /\ Logged "failed to delete topic: %v" [AErr err] ∈ events r))
  /\ (forall a f w t err,
         let r := Scheduler.main E a f w in
         Called Background (DeleteTopic t) (Some err) ∈ events r ->
         out r = Exit 1
         /\ Logged "failed to delete topic: %v" [AErr err] ∈ events r
         /\ exists before rest,
              created_topics (events r) = (before ++ t :: rest)%list
              /\ deleted_topics (events r) = (before ++ [t])%list).
Proof.
  split; [|split; [|split]].
  - intros ids w Hiter. cbn zeta.
    split; [apply deleteAllSubscriptions_returns|].
    split; [by rewrite deleteAllSubscriptions_deletions, Hiter, items_inr|].
    intros s err. rewrite deleteAllSubscriptions_unfold. cbn [events prepend app].
    intros [?|Hin]%elem_of_cons; [done|].
    apply list_elem_of_further. by apply delete_each_logs_failures.
  - intros a f w. cbn zeta. intros Hret.
    destruct (listener_shutdown_facts E a f w (or_introl Hret))
      as (evs & started & w0 & _ & Hshape).
    cbn zeta in Hshape.
    destruct (out (Listener.wait E a started w0)); [|by rewrite Hshape in Hret..].
    destruct Hshape as (_ & Hfinal & Hevents).
    by exists evs, (final (Listener.wait E a started w0)).
  - intros topics w. apply delete_topics_stops_at_first_failure.
  - intros a f w t err. apply scheduler_main_deletion_failure.
Qed.

(** A deletion that fails in the listener's teardown: the first of two
    requests is lost, the failure is logged, the second subscription is
    deleted all the same, and the first stays in the project. *)
Example failed_subscription_deletion_is_passed_over :
  let r := Listener.deleteAllSubscriptions (failing 0 (EStatus Unavailable)) crowded_project in
  events r
  = [Called Background ListSubscriptions None;
     Called Background (DeleteSubscription "s1") (Some (EStatus Unavailable));
     Logged "failed to delete subscription %q: %v" [AStr "s1"; AErr (EStatus Unavailable)];
     Called Background (DeleteSubscription "s2") None]
  /\ out r = Return tt
  /\ map_to_list (bus_subs (final r)) = [("s1", "a")].
Proof. cbn zeta. repeat split; by vm_compute. Qed.

(** ** C3: a topic creation that fails *)

(** C3, as the claim has it, fails: with three jobs and a creation that
    fails for the second topic, the process ends with status 1 after
    [Stop] on the first topic; no deletion is requested and the first
    topic is still on the bus. *)
Lemma first_topic_is_not_deleted :
  let r := Scheduler.main (failing 1 (EStatus Unavailable)) plain (Decoded three_jobs)
             empty_project in
  created_topics (events r) = ["t1"]
  /\ In (Called Background (CreateTopic "t2") (Some (EStatus Unavailable))) (events r)
  /\ out r = Exit 1
  /\ stopped_topics (events r) = ["t1"]
  /\ deleted_topics (events r) = []
  /\ bool_decide ("t1" ∈ bus_topics (final r)) = true.
Proof.
  cbn zeta. split; [by vm_compute|]. split.
  - vm_compute. do 2 right. left. reflexivity.
  - repeat split; by vm_compute.
Qed.

(** C3, amended: if the creation of a topic fails, the scheduler calls
    [Stop] on the topics it created before, deletes none of them (they
    stay on the bus), and exits with status 1; the cron engine is never
    started and no entry fires.  With three jobs and a failure on the
    second topic, the first topic is stopped and not deleted. *)
Theorem failed_topic_creation_stops_and_exits (E : env) (a : flags)
    (f : file Scheduler.config) (w : world) :
  let r := Scheduler.main E a f w in
  (exists name err, Called Background (CreateTopic name) (Some err) ∈ events r) ->
  out r = Exit 1
  /\ stopped_topics (events r) = created_topics (events r)
  /\ deleted_topics (events r) = []
  /\ (forall t, t ∈ created_topics (events r) -> t ∈ bus_topics (final r))
  /\ (CronStarted ∉ events r)
  /\ Forall (fun e => is_publish e = false) (events r).
Proof.
  cbn zeta. intros Hfail.
  destruct (main_failed_creation E a f w Hfail) as (cfg & Hfail0 & ->).
  cbn [out final events].
  destruct (add_jobs_failed_creation E _ _ _ _ Hfail0) as [_ Hstop].
  pose proof (add_jobs_events E (Scheduler.Jobs cfg) [] [] w) as Hev.
  split; [done|]. split; [exact Hstop|].
  split; [by apply startup_deletes_nothing|].
  split; [intros t; apply add_jobs_created|].
  rewrite Forall_forall in Hev. split.
  - intros Hin. by apply Hev in Hin.
  - apply Forall_forall. intros e He. apply Hev in He.
    destruct e as [| | | |[] [] ?| | | | | | | | |]; done.
Qed.

Lemma failed_topic_creation_stops_and_exits_witness :
  let r := Scheduler.main (failing 1 (EStatus Unavailable)) plain (Decoded three_jobs)
             empty_project in
  (exists name err, Called Background (CreateTopic name) (Some err) ∈ events r)
  /\ out r = Exit 1
  /\ stopped_topics (events r) = created_topics (events r)
  /\ deleted_topics (events r) = [].
Proof.
  cbn zeta.
  assert (H : exists name err,
             Called Background (CreateTopic name) (Some err)
               ∈ events (Scheduler.main (failing 1 (EStatus Unavailable)) plain
                           (Decoded three_jobs) empty_project)).
  { exists "t2", (EStatus Unavailable). apply list_elem_of_In.
    vm_compute. do 2 right. left. reflexivity. }
  split; [exact H|].
  destruct (failed_topic_creation_stops_and_exits _ _ _ _ H) as (H1 & H2 & H3 & _).
  auto.
Defined.

(** ** C4: configuration errors *)




(** A default configuration whose policy has a shape the type switch
    refuses: nothing is reported, and the subscriptions made up for the two
    topics are requested with that policy as it is. *)
Example default_policy_is_not_examined :
  let r := Listener.main calm plain (Decoded odd_default) two_topics in
  out (Listener.normalize calm (pubsub.ExpirationPolicy (Listener.DefaultConfig odd_default))
         two_topics) = Exit 1
  /\ out r = Return tt
  /\ requested_subscriptions (events r)
     = [("a", pubsub.with_Topic (Listener.DefaultConfig odd_default) "a");
        ("b", pubsub.with_Topic (Listener.DefaultConfig odd_default) "b")]
  /\ pubsub.ExpirationPolicy (pubsub.with_Topic (Listener.DefaultConfig odd_default) "a")
     = Bool true.
Proof. cbn zeta. repeat split; by vm_compute. Qed.

(** ** C6: the expiration policy *)



(** A policy given as the string ["1h"] and one given as the integer
    [3600]: both subscriptions are requested with the same duration. *)
Example policies_reach_the_service :
  let r := Listener.main calm plain (Decoded two_policies) two_topics in
  requested_subscriptions (events r)
  = [("s1", pubsub.with_Topic
              (pubsub.with_ExpirationPolicy pubsub.zero (Duration 3600000000000)) "a");
     ("s2", pubsub.with_Topic
              (pubsub.with_ExpirationPolicy pubsub.zero (Duration 3600000000000)) "b")].
Proof. by vm_compute. Qed.

(** ** C7: jobs for other targets *)

(** C7, as the claim has it, fails: two jobs for the bus that name the
    same topic are two of two jobs with none for another target, but the
    service refuses the second creation, and the startup ends with status 1
    after one topic and one cron entry. *)
Lemma shared_topic_stops_the_startup :
  let jobs := Scheduler.Jobs shared_topic in
  let r := Scheduler.main calm plain (Decoded shared_topic) empty_project in
  (length jobs - length (other_jobs jobs))%nat = 2%nat
  /\ out r = Exit 1
  /\ created_topics (events r) = ["t1"]
  /\ cron_entries (events r) = ["* * * * *"]
  /\ size (bus_topics (final r)) = 1%nat.
Proof. cbn zeta. repeat split; by vm_compute. Qed.

(** C7, amended: of [N] jobs of which [M] are not for the message bus, the
    startup of the scheduler creates topics and registers cron entries for
    the jobs for the bus only, in their order; these are all the topics
    and entries of the run.  When it completes, it has created exactly one
    topic and registered exactly one entry for each of the [N - M] jobs for
    the bus; and it does complete, with [N - M] more topics on the bus,
    when no request is lost, every spec is accepted, and the jobs for the
    bus name topics that are distinct and not yet in the project.
    Otherwise it may end before: the topics created and the entries
    registered are then fewer, those of the first jobs for the bus. *)
Theorem startup_creates_one_topic_per_bus_job (E : env) (jobs : list Scheduler.job)
    (w : world) :
  let r := Scheduler.add_jobs E jobs [] [] w in
  let N := length jobs in
  let M := length (other_jobs jobs) in
  (created_topics (events r) `prefix_of` job_topic <$> bus_jobs jobs)
  /\ (cron_entries (events r) `prefix_of` Scheduler.cronspec <$> bus_jobs jobs)
  /\ (forall tc,
         out r = Return tc ->
         tc = (job_topic <$> bus_jobs jobs, job_entry <$> bus_jobs jobs)
         /\ created_topics (events r) = job_topic <$> bus_jobs jobs
         /\ cron_entries (events r) = Scheduler.cronspec <$> bus_jobs jobs
         /\ length (created_topics (events r)) = (N - M)%nat
         /\ length (cron_entries (events r)) = (N - M)%nat)
  /\ ((forall j, j ∈ bus_jobs jobs -> cron_parse E (Scheduler.cronspec j) = None) ->
      reliable_from E w ->
      NoDup (job_topic <$> bus_jobs jobs) ->
      (forall name, name ∈ job_topic <$> bus_jobs jobs -> name ∉ bus_topics w) ->
      out r = Return (job_topic <$> bus_jobs jobs, job_entry <$> bus_jobs jobs)
      /\ size (bus_topics (final r)) = (size (bus_topics w) + (N - M))%nat)
  /\ (forall a cfg,
         Scheduler.Jobs cfg = jobs ->
         help a = false ->
         conf a <> "" ->
         new_client E (Scheduler.Project cfg) = None ->
         created_topics (events (Scheduler.main E a (Decoded cfg) w))
         = created_topics (events r)
         /\ cron_entries (events (Scheduler.main E a (Decoded cfg) w))
            = cron_entries (events r)
         /\ (CronStarted ∈ events (Scheduler.main E a (Decoded cfg) w) ->
             length (created_topics (events (Scheduler.main E a (Decoded cfg) w)))
             = (N - M)%nat
             /\ length (cron_entries (events (Scheduler.main E a (Decoded cfg) w)))
                = (N - M)%nat)).
Proof.
  cbn zeta. pose proof (jobs_split jobs) as Hsplit.
  destruct (add_jobs_prefix E jobs [] [] w) as [Hcreated Hentries].
  split; [done|]. split; [done|]. split; [|split].
  - intros tc Hout.
    destruct (add_jobs_returns E jobs [] [] w tc Hout) as (-> & -> & ->).
    rewrite !length_fmap. repeat split; lia.
  - intros Hparse Hrel Hnodup Hfresh.
    destruct (add_jobs_succeeds E jobs [] [] w Hparse Hrel Hnodup Hfresh)
      as (Hout & _ & _ & Hbus).
    split; [done|]. rewrite Hbus, size_union.
    + rewrite size_list_to_set by done. rewrite length_fmap. lia.
    + intros name Hin%elem_of_list_to_set. by apply Hfresh.
  - intros a cfg Hjobs Hhelp Hconf Hclient.
    assert (Hconf' : String.eqb (conf a) "" = false) by by apply String.eqb_neq.
    unfold Scheduler.main. rewrite Hhelp, Hconf', Hclient, Hjobs.
    pose proof (add_jobs_events E jobs [] [] w) as Hev.
    destruct (out (Scheduler.add_jobs E jobs [] [] w)) as [tc|s|] eqn:Hout.
    + rewrite (bind_Return _ _ _ _ Hout). cbn [events prepend].
      destruct (scheduler_tail E a tc.1 tc.2 (final (Scheduler.add_jobs E jobs [] [] w)))
        as (Hrun & _).
      rewrite created_topics_app, cron_entries_app.
      rewrite (created_topics_none _ Hrun), (cron_entries_none _ Hrun), !app_nil_r.
      split; [done|]. split; [done|]. intros _.
      destruct (add_jobs_returns E jobs [] [] w tc Hout) as (_ & -> & ->).
      rewrite !length_fmap. split; lia.
    + rewrite (bind_Exit _ _ _ _ Hout). cbn [events].
      split; [done|]. split; [done|]. intros Hin.
      rewrite Forall_forall in Hev. by apply Hev in Hin.
    + rewrite (bind_Forever _ _ _ Hout). cbn [events].
      split; [done|]. split; [done|]. intros Hin.
      rewrite Forall_forall in Hev. by apply Hev in Hin.
Qed.

Lemma startup_creates_one_topic_per_bus_job_witness :
  let r := Scheduler.add_jobs calm mixed_jobs [] [] empty_project in
  created_topics (events r) = ["t1"; "t3"]
  /\ out r = Return (job_topic <$> bus_jobs mixed_jobs, job_entry <$> bus_jobs mixed_jobs)
  /\ size (bus_topics (final r)) = (size (bus_topics empty_project) + (3 - 1))%nat.
Proof.
  cbn zeta. split; [by vm_compute|].
  assert (H1 : forall j, j ∈ bus_jobs mixed_jobs ->
                 cron_parse calm (Scheduler.cronspec j) = None).
  { intros j Hj. apply list_elem_of_In in Hj.
    vm_compute in Hj. destruct Hj as [<-|[<-|[]]]; reflexivity. }
  assert (H2 : reliable_from calm empty_project) by (intros n _; reflexivity).
  assert (H3 : NoDup (job_topic <$> bus_jobs mixed_jobs)).
  { change (NoDup ["t1"; "t3"]). apply NoDup_cons. split; [|apply NoDup_singleton].
    intros H%list_elem_of_singleton. discriminate. }
  assert (H4 : forall name, name ∈ job_topic <$> bus_jobs mixed_jobs ->
                 name ∉ bus_topics empty_project).
  { intros name _. apply not_elem_of_empty. }
  destruct (startup_creates_one_topic_per_bus_job calm mixed_jobs empty_project)
    as (_ & _ & _ & H & _).
  exact (H H1 H2 H3 H4).
Defined.

(** ** C8: a listener without configured subscriptions *)

(** C8: a listener whose configuration lists no subscription enumerates
    the topics of the project and makes up one subscription per topic it is
    told of, whose id is the id of the topic; it asks for the creation of
    each with the default configuration, bound to the topic. *)
Theorem listener_subscribes_to_every_topic (E : env) (a : flags) (cfg : Listener.config)
    (ids : list string) (w : world) :
  help a = false ->
  conf a <> "" ->
  new_client E (Listener.Project cfg) = None ->
  Listener.Subscriptions cfg = [] ->
  run_done w = false ->
  reliable_from E w ->
  topics_iter E (bus_topics w) = inr <$> ids ->
  (forall id, id ∈ ids -> id ∈ bus_topics w) ->
  let r := Listener.main E a (Decoded cfg) w in
  Listener.enumerate true (inr <$> ids) [] w
  = Result (Return (synthesized <$> ids)) w (adding ids)
  /\ requested_subscriptions (events r)
     = (fun id => (id, pubsub.with_Topic (Listener.DefaultConfig cfg) id)) <$> ids.
Proof.
  intros Hhelp Hconf Hclient Hsubs Hrun Hrel Hiter Hids. cbn zeta.
  assert (Hconf' : String.eqb (conf a) "" = false) by by apply String.eqb_neq.
  split; [apply enumerate_all|].
  unfold Listener.main. rewrite Hhelp, Hconf', Hsubs. cbn [Listener.normalize_all].
  rewrite bind_ret, Hclient, bind_logf.
  assert (Htopics : client_Topics E RunCtx w
                    = Result (Return (inr <$> ids)) w [Called RunCtx ListTopics None]).
  { unfold client_Topics. simpl. by rewrite Hrun, Hiter. }
  rewrite (bind_result _ _ _ _ _ _ Htopics).
  rewrite (bind_result _ _ _ _ _ _ (enumerate_all ids [] w)).
  cbn [app]. rewrite !prepend_prepend. cbn [events prepend].
  rewrite requested_subscriptions_app.
  assert (Hadding : requested_subscriptions
                      ([Logged "available topics:" []] ++ [Called RunCtx ListTopics None]
                       ++ adding ids) = []).
  { apply requested_subscriptions_none. repeat constructor.
    unfold adding. clear. induction ids as [|id rest IH]; [constructor|].
    by repeat constructor. }
  rewrite <- app_assoc, Hadding. cbn [app].
  case_bool_decide as Hempty.
  - destruct ids; [done|]. done.
  - rewrite running_quiet.
    destruct (subscribe_all_requests E cfg (synthesized <$> ids) [] w Hrun Hrel) as [_ ->].
    + intros sub [id [-> Hid]]%list_elem_of_fmap. by apply Hids.
    + rewrite <- list_fmap_compose. done.
Qed.

Lemma listener_subscribes_to_every_topic_witness :
  let r := Listener.main calm plain (Decoded no_subscriptions) two_topics in
  requested_subscriptions (events r)
  = (fun id => (id, pubsub.with_Topic pubsub.zero id)) <$> elements (bus_topics two_topics)
  /\ fst <$> requested_subscriptions (events r) = ["a"; "b"].
Proof.
  cbn zeta. split; [|by vm_compute].
  apply (listener_subscribes_to_every_topic calm plain no_subscriptions
           (elements (bus_topics two_topics)) two_topics); try reflexivity.
  - discriminate.
  - intros n _. reflexivity.
  - intros id. apply elem_of_elements.
Defined.

(** ** C9: a listener with nothing to subscribe to *)

(** C9: started without configured subscriptions in a project without
    topics, the listener logs "no available subscriptions" and exits with
    status 0; it has asked for the list of topics and for nothing else, and
    has started no receiver. *)
Theorem listener_without_topics_exits (E : env) (a : flags) (cfg : Listener.config)
    (w : world) :
  help a = false ->
  conf a <> "" ->
  new_client E (Listener.Project cfg) = None ->
  Listener.Subscriptions cfg = [] ->
  run_done w = false ->
  bus_topics w = ∅ ->
  faithful (topics_iter E (bus_topics w)) (bus_topics w) ->
  Listener.main E a (Decoded cfg) w
  = Result (Exit 0) w
      [Logged "available topics:" []; Called RunCtx ListTopics None;
       Logged "no available subscriptions" []].
Proof.
  intros Hhelp Hconf Hclient Hsubs Hrun Hempty (ids & Hiter & _ & Hin).
  assert (Hconf' : String.eqb (conf a) "" = false) by by apply String.eqb_neq.
  assert (ids = []) as ->.
  { destruct ids as [|id rest]; [done|]. exfalso.
    apply (not_elem_of_empty (C := gset string) id).
    rewrite <- Hempty. apply Hin, list_elem_of_here. }
  unfold Listener.main. rewrite Hhelp, Hconf', Hsubs. cbn [Listener.normalize_all].
  rewrite bind_ret, Hclient, bind_logf.
  assert (Htopics : client_Topics E RunCtx w
                    = Result (Return []) w [Called RunCtx ListTopics None]).
  { unfold client_Topics. simpl. by rewrite Hrun, Hiter. }
  by rewrite (bind_result _ _ _ _ _ _ Htopics).
Qed.

Lemma listener_without_topics_exits_witness :
  out (Listener.main calm plain (Decoded no_subscriptions) empty_project) = Exit 0.
Proof.
  rewrite (listener_without_topics_exits calm plain no_subscriptions empty_project);
    try reflexivity.
  - discriminate.
  - apply calm_lists_topics.
Defined.

(** ** C10: the context of the teardown *)


(** An interrupt with two receivers running: the context of the run is
    done when the run ends, and the pass has deleted both subscriptions. *)
Example interrupted_listener_clears_project :
  let r := Listener.main calm plain (Decoded no_subscriptions) two_topics in
  interrupt calm = true
  /\ spawned (events r) = ["a"; "b"]
  /\ out r = Return tt
  /\ run_done (final r) = true
  /\ deleted_subscriptions (events r) = ["a"; "b"]
  /\ map_to_list (bus_subs (final r)) = [].
Proof. cbn zeta. repeat split; by vm_compute. Qed.

(** * Further properties of the programs *)

(** ** Configurations *)

Section Normalization.

Variable E : env.

Lemma with_policy_normalized sub exp w p :
  exp = pubsub.ExpirationPolicy (Listener.Config sub) ->
  out (Listener.normalize E exp w) = Return p ->
  normalized sub (Listener.with_policy sub p).
Proof.
  intros -> Hp. unfold normalized, Listener.with_policy. cbn.
  split; [done|]. split; [done|]. split; [done|].
  destruct sub as [t id [t' ack retain retention policy ordering filter detached]].
  cbn in *. unfold Listener.isEmptyConfig. cbn.
  destruct policy; cbn in Hp; try done.
  - injection Hp as <-. done.
  - destruct (ParseDuration E s); [done|]. injection Hp as <-.
    split; [by eexists|]. by destruct t'.
  - injection Hp as <-. split; [by eexists|]. by destruct t'.
Qed.

End Normalization.

(** X2: a normalization that goes through keeps the subscriptions, their
    number and their order; of each it changes the expiration policy only,
    which is absent as before or a [time.Duration] afterwards, and an empty
    configuration stays empty, a non-empty one non-empty. *)
Theorem normalize_all_keeps (E : env) (subs subs' : list Listener.subscription)
    (w : world) :
  out (Listener.normalize_all E subs w) = Return subs' ->
  Forall2 normalized subs subs'.
Proof.
  revert subs'. induction subs as [|sub rest IH]; intros subs' Hout.
  - cbn in Hout. injection Hout as <-. constructor.
  - cbn [Listener.normalize_all] in Hout.
    destruct (normalize_run E (pubsub.ExpirationPolicy (Listener.Config sub)) w)
      as [[p Hp]|(format & args & Hp)].
    + rewrite (bind_result _ _ _ _ _ _ Hp), prepend_nil in Hout.
      destruct (normalize_all_run E rest w) as [[rest' Hr]|(format & args & Hr)].
      * rewrite (bind_result _ _ _ _ _ _ Hr), prepend_nil in Hout.
        cbn in Hout. injection Hout as <-. constructor.
        -- eapply with_policy_normalized; [done|]. by rewrite Hp.
        -- apply IH. by rewrite Hr.
      * unfold bind in Hout. by rewrite Hr in Hout.
    + unfold bind in Hout. by rewrite Hp in Hout.
Qed.

Lemma normalize_all_keeps_witness :
  Forall2 normalized
    [{| Listener.Topic := "a"; Listener.ID := "s";
        Listener.Config := pubsub.with_ExpirationPolicy pubsub.zero (Str "1h") |}]
    [{| Listener.Topic := "a"; Listener.ID := "s";
        Listener.Config :=
          pubsub.with_ExpirationPolicy pubsub.zero (Duration 3600000000000) |}].
Proof.
  apply (normalize_all_keeps calm _ _ empty_project). reflexivity.
Defined.

(** ** Runs of the listener *)

(** X3: no run of the listener creates, deletes or publishes to a topic:
    its requests are the listing of the topics and the creation of
    subscriptions under the context of the run, and the listing and the
    deletion of subscriptions under the background context; the topics of
    the project are afterwards what they were. *)
Theorem listener_leaves_topics_alone (E : env) (a : flags) (f : file Listener.config)
    (w : world) :
  Forall (fun e => listener_event e = true) (events (Listener.main E a f w))
  /\ bus_topics (final (Listener.main E a f w)) = bus_topics w.
Proof. destruct (listener_main_facts E a f w) as (H1 & H2 & _). by split. Qed.

(** X4: a receiver is started for every subscription the service created
    for this run and for no other: the subscriptions with a receiver are
    the subscriptions created, in the same order. *)
Theorem receivers_are_for_created_subscriptions (E : env) (a : flags)
    (f : file Listener.config) (w : world) :
  spawned (events (Listener.main E a f w))
  = created_subscriptions (events (Listener.main E a f w)).
Proof. by destruct (listener_main_facts E a f w) as (_ & _ & H & _). Qed.

(** X5: the listener ends by returning from [main] or with status 0, 1 or
    2, unless it waits for ever; the status is 2 exactly when [-help] is
    not given and [-conf] is missing. *)
Theorem listener_exit_statuses (E : env) (a : flags) (f : file Listener.config)
    (w : world) :
  expected_outcome (out (Listener.main E a f w))
  /\ (out (Listener.main E a f w) = Exit 2 <-> help a = false /\ conf a = "").
Proof. destruct (listener_main_facts E a f w) as (_ & _ & _ & H1 & H2 & _). by split. Qed.

(** X6: a listener that has started no receiver does not wait: when its
    run does not exit with a status (the subscriptions all exist already,
    say) it prints "cancelling", runs the deletion pass and returns from
    [main], without an interrupt or a timeout (the listing of the
    subscriptions yielding no error). *)
Theorem listener_waits_only_for_receivers (E : env) (a : flags)
    (f : file Listener.config) (w : world) :
  (forall m, exists ids, subs_iter E m = inr <$> ids) ->
  spawned (events (Listener.main E a f w)) = [] ->
  (forall s, out (Listener.main E a f w) <> Exit s) ->
  out (Listener.main E a f w) = Return tt
  /\ exists evs w1,
       events (Listener.main E a f w)
       = (evs ++ Printed "cancelling"
                 :: events (Listener.deleteAllSubscriptions E w1)
                 ++ [SignalStop; Closed])%list
       /\ final (Listener.main E a f w) = final (Listener.deleteAllSubscriptions E w1).
Proof.
  intros _ Hnone Hexit.
  destruct (listener_main_facts E a f w) as (_ & _ & _ & Hout & _ & Hwait).
  assert (Hret : out (Listener.main E a f w) = Return tt).
  { destruct Hout as [?|[Hf|[He|[He|He]]]]; [done| |by apply Hexit in He..].
    by apply Hwait in Hf. }
  split; [done|].
  destruct (listener_shutdown_facts E a f w (or_introl Hret))
    as (evs & started & w0 & _ & Hshape).
  cbn zeta in Hshape.
  destruct (out (Listener.wait E a started w0)); [|by rewrite Hshape in Hret..].
  destruct Hshape as (_ & Hfinal & Hevents).
  by exists evs, (final (Listener.wait E a started w0)).
Qed.

Lemma listener_waits_only_for_receivers_witness :
  interrupt undisturbed = false
  /\ duration plain = 0
  /\ out (Listener.main undisturbed plain (Decoded one_subscription) taken_project)
     = Return tt.
Proof.
  split; [reflexivity|]. split; [reflexivity|].
  apply (listener_waits_only_for_receivers undisturbed plain (Decoded one_subscription)
           taken_project).
  - intros m. by exists (map_to_list m).*1.
  - by vm_compute.
  - intros s. by vm_compute.
Defined.

(** ** A subscription that cannot be created *)

(** X7: when the creation of a subscription fails, and not because the
    subscription exists already, the listener runs the deletion pass and
    exits with status 1.  With a complete listing and no request lost, no
    subscription is left in the project, whoever created it. *)
Theorem failed_subscription_creation_clears_project (E : env) (a : flags)
    (f : file Listener.config) (w : world) (id : string)
    (c : pubsub.SubscriptionConfig) (err : error) :
  (forall m, faithful (subs_iter E m) (dom m)) ->
  (forall n, rpc_fault E n = None) ->
  grpc_Code err <> AlreadyExists ->
  Called RunCtx (CreateSubscription id c) (Some err) ∈ events (Listener.main E a f w) ->
  out (Listener.main E a f w) = Exit 1
  /\ bus_subs (final (Listener.main E a f w)) = ∅.
Proof.
  intros Hlist Hrel Hcode Hin.
  destruct (listener_main_loop E a f w id c (Some err) Hin) as (cfg & subs & Hin0 & Hexit).
  pose proof (subscribe_all_failed E cfg subs [] w id c err Hcode Hin0) as Hout.
  destruct (Hexit 1 Hout) as [-> ->]. split; [done|].
  destruct (subscribe_all_facts E cfg subs [] w) as (_ & _ & _ & Hfacts).
  rewrite Hout in Hfacts. destruct Hfacts as [_ [w' ->]].
  apply deleteAllSubscriptions_clears; [apply Hlist|]. intros n _. apply Hrel.
Qed.

Lemma failed_subscription_creation_clears_project_witness :
  bus_subs taken_project !! "s" = Some "a"
  /\ out (Listener.main calm plain (Decoded missing_topic) taken_project) = Exit 1
  /\ bus_subs (final (Listener.main calm plain (Decoded missing_topic) taken_project)) = ∅.
Proof.
  split; [by vm_compute|].
  apply (failed_subscription_creation_clears_project calm plain (Decoded missing_topic)
           taken_project "z" (pubsub.with_Topic pubsub.zero "zz") (EStatus NotFound)
           calm_lists_subscriptions (fun _ => eq_refl)).
  - discriminate.
  - apply list_elem_of_In. vm_compute. do 5 right. left. reflexivity.
Defined.

(** ** An enumeration of the topics that fails *)

Lemma enumerate_error all topit subs w err :
  inl err ∈ topit ->
  out (Listener.enumerate all topit subs w) = Exit 1
  /\ exists err', Logged "error during topic enumeration: %v" [AErr err']
                    ∈ events (Listener.enumerate all topit subs w).
Proof.
  revert subs. induction topit as [|[err'|id] rest IH]; intros subs Hin.
  - by apply elem_of_nil in Hin.
  - split; [done|]. exists err'. apply list_elem_of_here.
  - apply elem_of_cons in Hin as [?|Hin]; [done|].
    cbn [Listener.enumerate]. rewrite bind_logf. destruct all.
    + rewrite bind_logf, prepend_prepend. cbn [out events prepend].
      destruct (IH (subs ++ [{| Listener.Topic := id; Listener.ID := id;
                                Listener.Config := pubsub.zero |}])%list Hin)
        as (Ho & err'' & He).
      split; [done|]. exists err''. apply elem_of_app. by right.
    + cbn [out events prepend]. destruct (IH subs Hin) as (Ho & err'' & He).
      split; [done|]. exists err''. by apply list_elem_of_further.
Qed.

(** X8: an error of the topic iterator is fatal: the listener reports it
    and exits with status 1; it has asked for no subscription and the bus is
    as it was. *)
Theorem enumeration_error_is_fatal (E : env) (a : flags) (cfg : Listener.config)
    (subs : list Listener.subscription) (w : world) (err : error) :
  help a = false ->
  conf a <> "" ->
  out (Listener.normalize_all E (Listener.Subscriptions cfg) w) = Return subs ->
  new_client E (Listener.Project cfg) = None ->
  run_done w = false ->
  inl err ∈ topics_iter E (bus_topics w) ->
  let r := Listener.main E a (Decoded cfg) w in
  out r = Exit 1
  /\ final r = w
  /\ requested_subscriptions (events r) = []
  /\ exists err', Logged "error during topic enumeration: %v" [AErr err'] ∈ events r.
Proof.
  intros Hhelp Hconf Hnorm Hclient Hrun Herr. cbn zeta.
  assert (Hconf' : String.eqb (conf a) "" = false) by by apply String.eqb_neq.
  unfold Listener.main. rewrite Hhelp, Hconf'.
  destruct (normalize_all_run E (Listener.Subscriptions cfg) w)
    as [[subs0 Hr]|(format & args & Hr)]; [|by rewrite Hr in Hnorm].
  rewrite (bind_result _ _ _ _ _ _ Hr), prepend_nil, Hclient, bind_logf.
  erewrite (bind_result (client_Topics E RunCtx)) by reflexivity.
  rewrite prepend_prepend. cbn [expired]. rewrite Hrun.
  set (all := bool_decide (length subs0 = 0%nat)).
  destruct (enumerate_error all _ subs0 w err Herr) as (Ho & err' & He).
  destruct (enumerate_run all (topics_iter E (bus_topics w)) subs0 w) as (Hf & Hl & _).
  destruct (late_is_quiet _ Hl) as (_ & _ & _ & Hq).
  rewrite (bind_Exit _ _ _ _ Ho), Hf. cbn [out final events prepend].
  split; [done|]. split; [done|]. split.
  - by rewrite requested_subscriptions_app, Hq.
  - exists err'. apply elem_of_app. by right.
Qed.

Lemma enumeration_error_is_fatal_witness :
  let E := {| rpc_fault := rpc_fault calm; new_client := new_client calm;
              topics_iter := fun _ => [inl (EStatus Unavailable)];
              subs_iter := subs_iter calm; cron_parse := cron_parse calm;
              ParseDuration := ParseDuration calm; firings := firings calm;
              deliveries := deliveries calm; receive_error := receive_error calm;
              interrupt := interrupt calm |} in
  out (Listener.main E plain (Decoded one_subscription) taken_project) = Exit 1.
Proof.
  cbn zeta.
  eapply (enumeration_error_is_fatal _ plain one_subscription _ taken_project
            (EStatus Unavailable)); try reflexivity.
  - discriminate.
  - apply list_elem_of_here.
Defined.

(** ** Runs of the scheduler *)

(** X9: no run of the scheduler touches a subscription or starts a
    receiver: its requests are creations of topics, publications and
    deletions of topics, all under the background context; the
    subscriptions of the project are afterwards what they were. *)
Theorem scheduler_leaves_subscriptions_alone (E : env) (a : flags)
    (f : file Scheduler.config) (w : world) :
  Forall (fun e => scheduler_event e = true) (events (Scheduler.main E a f w))
  /\ bus_subs (final (Scheduler.main E a f w)) = bus_subs w.
Proof. destruct (scheduler_main_facts E a f w) as (H1 & H2 & _). by split. Qed.

(** X10: the scheduler ends by returning from [main] or with status 0, 1
    or 2, unless it runs for ever; the status is 0 exactly when [-help] is
    given, and 2 exactly when it is not and [-conf] is missing. *)
Theorem scheduler_exit_statuses (E : env) (a : flags) (f : file Scheduler.config)
    (w : world) :
  expected_outcome (out (Scheduler.main E a f w))
  /\ (out (Scheduler.main E a f w) = Exit 0 <-> help a = true)
  /\ (out (Scheduler.main E a f w) = Exit 2 <-> help a = false /\ conf a = "").
Proof.
  destruct (scheduler_main_facts E a f w) as (_ & _ & H1 & H2 & H3 & _). by split_and!.
Qed.

(** X11: the scheduler asks for the deletion of topics it has created
    itself only, in the order of their creation and each at most once: the
    deletions requested in a run are a prefix of the creations that
    succeeded. *)
Theorem scheduler_deletes_only_its_topics (E : env) (a : flags)
    (f : file Scheduler.config) (w : world) :
  deleted_topics (events (Scheduler.main E a f w))
    `prefix_of` created_topics (events (Scheduler.main E a f w)).
Proof. by destruct (scheduler_main_facts E a f w) as (_ & _ & _ & _ & _ & H & _). Qed.

(** X12: without a timeout ([-timeout 0]) and without an interrupt the
    scheduler never reaches its teardown: it does not return, it does not
    print "cancelling" and it asks for the deletion of no topic. *)
Theorem scheduler_runs_until_interrupted (E : env) (a : flags)
    (f : file Scheduler.config) (w : world) :
  interrupt E = false ->
  duration a = 0 ->
  out (Scheduler.main E a f w) <> Return tt
  /\ deleted_topics (events (Scheduler.main E a f w)) = []
  /\ (Printed "cancelling" ∉ events (Scheduler.main E a f w)).
Proof. by destruct (scheduler_main_facts E a f w) as (_ & _ & _ & _ & _ & _ & H). Qed.

Lemma scheduler_runs_until_interrupted_witness :
  out (Scheduler.main undisturbed plain (Decoded quickstart) empty_project) = Forever
  /\ deleted_topics (events (Scheduler.main undisturbed plain (Decoded quickstart)
                               empty_project)) = [].
Proof.
  split; [by vm_compute|].
  apply (scheduler_runs_until_interrupted undisturbed plain (Decoded quickstart)
           empty_project eq_refl eq_refl).
Defined.

(** ** What is published *)

Lemma fired_entries c due p :
  p ∈ fired c due ->
  exists e, e ∈ c /\ p = (Scheduler.entry_topic e, Scheduler.Payload (Scheduler.entry_job e)).
Proof.
  induction due as [|i rest IH]; cbn [fired].
  - intros H. by apply elem_of_nil in H.
  - destruct (c !! i) as [e|] eqn:Hi; [|done].
    intros [->|H]%elem_of_cons; [|by apply IH].
    exists e. split; [|done]. by eapply list_elem_of_lookup_2.
Qed.

(** X13: once the startup is through, every cron entry that comes due
    publishes the payload of its job, as it is, to the topic of that job,
    whether earlier publications failed or not; nothing else is published
    in a run. *)
Theorem firings_publish_the_payloads (E : env) (a : flags) (cfg : Scheduler.config)
    (w : world) (tc : list string * list Scheduler.entry) :
  help a = false ->
  conf a <> "" ->
  new_client E (Scheduler.Project cfg) = None ->
  out (Scheduler.add_jobs E (Scheduler.Jobs cfg) [] [] w) = Return tc ->
  let r := Scheduler.main E a (Decoded cfg) w in
  publications (events r) = fired (job_entry <$> bus_jobs (Scheduler.Jobs cfg)) (firings E)
  /\ forall p, p ∈ publications (events r) ->
               exists j, j ∈ bus_jobs (Scheduler.Jobs cfg)
                         /\ p = (job_topic j, Scheduler.Payload j).
Proof.
  intros Hhelp Hconf Hclient Hout. cbn zeta.
  assert (Hconf' : String.eqb (conf a) "" = false) by by apply String.eqb_neq.
  assert (Hpub : publications (events (Scheduler.main E a (Decoded cfg) w))
                 = fired (job_entry <$> bus_jobs (Scheduler.Jobs cfg)) (firings E)).
  { unfold Scheduler.main. rewrite Hhelp, Hconf', Hclient.
    rewrite (bind_Return _ _ _ _ Hout). cbn [events prepend].
    destruct (startup_is_scheduler _ (add_jobs_events E (Scheduler.Jobs cfg) [] [] w))
      as [_ Sp].
    destruct (scheduler_tail E a tc.1 tc.2
                (final (Scheduler.add_jobs E (Scheduler.Jobs cfg) [] [] w)))
      as (_ & _ & _ & _ & Tp & _).
    rewrite publications_app, Sp, Tp.
    by destruct (add_jobs_returns E (Scheduler.Jobs cfg) [] [] w tc Hout) as (-> & _). }
  split; [done|]. rewrite Hpub. intros p Hp.
  destruct (fired_entries _ _ _ Hp) as (e & He & ->).
  apply list_elem_of_fmap in He as (j & -> & Hj). by exists j.
Qed.

Lemma firings_publish_the_payloads_witness :
  publications (events (Scheduler.main ticking plain (Decoded quickstart) empty_project))
  = [("cron-job", "hello cron!"); ("cron-job", "hello cron!"); ("cron-job", "hello cron!")].
Proof.
  assert (H : publications
                (events (Scheduler.main ticking plain (Decoded quickstart) empty_project))
              = fired (job_entry <$> bus_jobs (Scheduler.Jobs quickstart)) (firings ticking)).
  { eapply (firings_publish_the_payloads ticking plain quickstart empty_project);
      try reflexivity. discriminate. }
  rewrite H. reflexivity.
Defined.

(** ** More on the startup of the scheduler *)

Section StartupMore.

Variable E : env.


(** A creation the service accepts is the creation of a topic that was
    not there; one that fails leaves the topics as they are. *)
Lemma answer_CreateTopic_new ctx name w :
  match (answer E ctx (CreateTopic name) w).1 with
  | None =>
      (name ∉ bus_topics w)
      /\ bus_topics (answer E ctx (CreateTopic name) w).2 = {[name]} ∪ bus_topics w
  | Some _ => bus_topics (answer E ctx (CreateTopic name) w).2 = bus_topics w
  end.
Proof.
  unfold answer. destruct (expired ctx w); [done|].
  destruct (rpc_fault E (rpcs w)); [done|].
  cbn [serve]. by case_decide.
Qed.

(** The topics created in the loop over the jobs were not on the bus, no
    two of them are the same, and they are what the loop adds to the bus. *)
Lemma add_jobs_new_topics jobs topics c w :
  let r := Scheduler.add_jobs E jobs topics c w in
  NoDup (created_topics (events r))
  /\ (forall name, name ∈ created_topics (events r) -> name ∉ bus_topics w)
  /\ bus_topics (final r) = list_to_set (created_topics (events r)) ∪ bus_topics w.
Proof.
  cbn zeta. revert topics c w. induction jobs as [|j rest IH]; intros topics c w.
  - cbn [Scheduler.add_jobs ret events final created_topics].
    split; [constructor|]. split; [by intros name H%elem_of_nil|].
    by rewrite list_to_set_nil, (left_id_L ∅ (∪)).
  - rewrite add_jobs_cons. destruct (Scheduler.is_pubsub j); [|apply IH]. cbn zeta.
    pose proof (answer_CreateTopic_new Background (Scheduler.Topic (Scheduler.Target j)) w)
      as Hnew.
    destruct (answer E Background _ w) as [[err|] w2]; cbn [fst snd] in *.
    + cbn [events final created_topics]. rewrite created_topics_stopped.
      split; [constructor|]. split; [by intros name H%elem_of_nil|].
      by rewrite list_to_set_nil, (left_id_L ∅ (∪)).
    + destruct Hnew as [Hfresh Hbus].
      destruct (cron_parse E (Scheduler.cronspec j)).
      * cbn [events final created_topics]. rewrite created_topics_stopped.
        split; [apply NoDup_singleton|]. split.
        -- by intros name ->%list_elem_of_singleton.
        -- rewrite Hbus, list_to_set_cons, list_to_set_nil. by rewrite (right_id_L ∅ (∪)).
      * destruct (IH (topics ++ [Scheduler.Topic (Scheduler.Target j)])%list
                    (c ++ [Scheduler.Build_entry (Scheduler.cronspec j) j
                             (Scheduler.Topic (Scheduler.Target j))])%list w2)
          as (IHn & IHf & IHb).
        cbn [events final prepend app created_topics].
        split_and!.
        -- apply NoDup_cons. split; [|done]. intros Hin. apply (IHf _ Hin).
           rewrite Hbus. apply elem_of_union. left. by apply elem_of_singleton.
        -- intros name [->|Hin]%elem_of_cons; [done|].
           intros Hw. apply (IHf _ Hin). rewrite Hbus. apply elem_of_union. by right.
        -- rewrite IHb, Hbus, list_to_set_cons. by rewrite (assoc_L (∪)), (comm_L (∪) _ {[_]}).
Qed.

(** The deletion of topics that are on the bus, over a transport that
    loses nothing. *)
Lemma delete_topics_clean topics w :
  reliable_from E w ->
  NoDup topics ->
  (forall t, t ∈ topics -> t ∈ bus_topics w) ->
  let r := Scheduler.delete_topics E topics w in
  out r = Return tt
  /\ deleted_topics (events r) = topics
  /\ bus_topics (final r) = bus_topics w ∖ list_to_set topics.
Proof.
  cbn zeta. revert w. induction topics as [|t rest IH]; intros w Hrel Hnodup Hin.
  - cbn [Scheduler.delete_topics out events final deleted_topics ret].
    split_and!; try done. rewrite list_to_set_nil. by rewrite difference_empty_L.
  - rewrite delete_topics_cons. cbn zeta.
    rewrite answer_Background by done. cbn [serve].
    rewrite decide_True by (apply Hin, list_elem_of_here). cbn [fst snd].
    apply NoDup_cons in Hnodup as [Hnew Hnodup].
    set (w2 := with_topics _ _).
    assert (Hrel2 : reliable_from E w2).
    { eapply reliable_from_mono; [|exact Hrel]. simpl. lia. }
    assert (Hin2 : forall t', t' ∈ rest -> t' ∈ bus_topics w2).
    { intros t' Ht'. subst w2. cbn. apply elem_of_difference. split.
      - by apply Hin, list_elem_of_further.
      - intros ->%elem_of_singleton. done. }
    destruct (IH w2 Hrel2 Hnodup Hin2) as (Ho & Hd & Hb).
    cbn [out final events prepend app deleted_topics].
    rewrite Hd, Hb, list_to_set_cons. subst w2. split_and!; try done.
    apply set_eq. intros x. cbn.
    rewrite !elem_of_difference, elem_of_union, elem_of_singleton. tauto.
Qed.

Lemma add_jobs_rpcs jobs topics c w :
  (rpcs w <= rpcs (final (Scheduler.add_jobs E jobs topics c w)))%nat.
Proof.
  revert topics c w. induction jobs as [|j rest IH]; intros topics c w.
  - done.
  - rewrite add_jobs_cons. destruct (Scheduler.is_pubsub j); [|apply IH]. cbn zeta.
    pose proof (answer_rpcs E Background
                  (CreateTopic (Scheduler.Topic (Scheduler.Target j))) w) as Hrpcs.
    destruct (answer E Background _ w) as [[err|] w2]; cbn [fst snd] in *.
    + cbn [final]. lia.
    + destruct (cron_parse E (Scheduler.cronspec j)).
      * cbn [final]. lia.
      * cbn [final prepend].
        etransitivity; [|apply IH]. lia.
Qed.

Lemma run_rpcs c due w :
  (rpcs w <= rpcs (final (Scheduler.run E c due w)))%nat.
Proof.
  revert w. induction due as [|i rest IH]; intros w; [done|].
  cbn [Scheduler.run]. unfold Scheduler.fire.
  destruct (c !! i) as [e|].
  - rewrite (bind_result _ _ _ _ _ _ (publish_run E _ _ _)). cbn zeta.
    pose proof (answer_rpcs E Background
                  (Publish (Scheduler.entry_topic e)
                     (Scheduler.Payload (Scheduler.entry_job e))) w) as Hrpcs.
    destruct (answer E Background _ w) as [failure w2]. cbn [fst snd final prepend] in *.
    etransitivity; [|apply IH]. lia.
  - rewrite bind_ret. apply IH.
Qed.

Lemma deleted_topics_startup evs :
  Forall (fun e => startup_event e = true) evs -> deleted_topics evs = [].
Proof.
  induction 1 as [|e evs He _ IH]; [done|].
  destruct e as [| | | |[] [] ?| | | | | | | | |]; done.
Qed.

(** From the start of the cron engine to the end of a run that is
    interrupted or times out, over a transport that loses nothing. *)
Lemma scheduler_tail_clean a topics c w :
  reliable_from E w ->
  NoDup topics ->
  (forall t, t ∈ topics -> t ∈ bus_topics w) ->
  interrupt E = true \/ duration a <> 0 ->
  let r := (emit SignalNotify ;;
            emit CronStarted ;;
            Scheduler.run E c (firings E) ;;
            Scheduler.await E a ;;
            emit (Printed "cancelling") ;;
            emit CronStopped ;;
            Scheduler.delete_topics E topics ;;
            emit SignalStop ;;
            emit Closed) w in
  out r = Return tt
  /\ created_topics (events r) = []
  /\ deleted_topics (events r) = topics
  /\ bus_topics (final r) = bus_topics w ∖ list_to_set topics.
Proof.
  intros Hrel Hnodup Hin Hend.
  destruct (scheduler_tail E a topics c w) as (Hev & _).
  cbn zeta in *. split_and!; [| by apply created_topics_none | |];
    clear Hev; rewrite !bind_emit, prepend_prepend;
    destruct (run_facts E c (firings E) w) as (Ro & _ & Rt & _ & _ & Rd & _);
    rewrite (bind_Return _ _ _ _ Ro), prepend_prepend;
    pose proof (run_rpcs c (firings E) w) as Rr;
    set (w1 := final (Scheduler.run E c (firings E) w)) in *;
    destruct (await_facts E a w1) as (Ae & Af & _ & _ & Ao);
    rewrite (bind_Return _ _ _ _ (Ao Hend)), Ae, Af, !bind_emit, !prepend_prepend;
    (assert (Hrel1 : reliable_from E w1) by (eapply reliable_from_mono; [exact Rr|exact Hrel]));
    (assert (Hin1 : forall t, t ∈ topics -> t ∈ bus_topics w1)
       by (intros t Ht; rewrite Rt; by apply Hin));
    destruct (delete_topics_clean topics w1 Hrel1 Hnodup Hin1) as (Do & Dd & Db);
    rewrite (bind_Return _ _ _ _ Do), !prepend_prepend;
    cbn [out final events prepend bind emit].
  - done.
  - rewrite !deleted_topics_app, Rd, Dd. cbn [app deleted_topics]. by rewrite app_nil_r.
  - by rewrite Db, Rt.
Qed.

End StartupMore.



(** X15: the cron engine is started only once every job for the bus has
    a topic of its own that the service has created for this run: no two
    of these jobs name the same topic, and none of the topics was in the
    project before. *)
Theorem scheduler_starts_only_with_new_topics (E : env) (a : flags)
    (f : file Scheduler.config) (w : world) :
  CronStarted ∈ events (Scheduler.main E a f w) ->
  exists cfg,
    f = Decoded cfg
    /\ NoDup (job_topic <$> bus_jobs (Scheduler.Jobs cfg))
    /\ forall name, name ∈ job_topic <$> bus_jobs (Scheduler.Jobs cfg) ->
                    name ∉ bus_topics w.
Proof.
  unfold Scheduler.main.
  destruct (help a).
  { cbn. intros H. repeat (apply elem_of_cons in H as [?|H]; [done|]). by apply elem_of_nil in H. }
  destruct (String.eqb (conf a) "").
  { cbn. intros H. repeat (apply elem_of_cons in H as [?|H]; [done|]). by apply elem_of_nil in H. }
  destruct f as [e|e|cfg].
  { cbn. intros H. repeat (apply elem_of_cons in H as [?|H]; [done|]). by apply elem_of_nil in H. }
  { cbn. intros H. repeat (apply elem_of_cons in H as [?|H]; [done|]). by apply elem_of_nil in H. }
  destruct (new_client E (Scheduler.Project cfg)).
  { cbn. intros H. repeat (apply elem_of_cons in H as [?|H]; [done|]). by apply elem_of_nil in H. }
  pose proof (add_jobs_events E (Scheduler.Jobs cfg) [] [] w) as Hev.
  rewrite Forall_forall in Hev.
  destruct (out (Scheduler.add_jobs E (Scheduler.Jobs cfg) [] [] w)) as [tc|s|] eqn:Hout.
  - intros _. exists cfg. split; [done|].
    destruct (add_jobs_returns E _ _ _ _ _ Hout) as (_ & Hcreated & _).
    destruct (add_jobs_new_topics E (Scheduler.Jobs cfg) [] [] w) as (Hnodup & Hfresh & _).
    rewrite Hcreated in Hnodup, Hfresh. by split.
  - rewrite (bind_Exit _ _ _ _ Hout). cbn [events]. intros H. by apply Hev in H.
  - rewrite (bind_Forever _ _ _ Hout). cbn [events]. intros H. by apply Hev in H.
Qed.

Lemma scheduler_starts_only_with_new_topics_witness :
  exists cfg,
    Decoded quickstart = Decoded cfg
    /\ NoDup (job_topic <$> bus_jobs (Scheduler.Jobs cfg))
    /\ forall name, name ∈ job_topic <$> bus_jobs (Scheduler.Jobs cfg) ->
                    name ∉ bus_topics empty_project.
Proof.
  apply (scheduler_starts_only_with_new_topics calm plain (Decoded quickstart) empty_project).
  apply list_elem_of_In. vm_compute. auto 10.
Defined.

(** X16: a run of the scheduler that is interrupted or times out, over a
    transport that loses nothing, with specs the parser accepts and topics
    that are new and distinct, returns from [main] having deleted the
    topics it created, in the order of their creation; the topics of the
    project are afterwards what they were before the run. *)
Theorem ended_scheduler_removes_its_topics (E : env) (a : flags) (cfg : Scheduler.config)
    (w : world) :
  help a = false ->
  conf a <> "" ->
  new_client E (Scheduler.Project cfg) = None ->
  (forall j, j ∈ bus_jobs (Scheduler.Jobs cfg) ->
             cron_parse E (Scheduler.cronspec j) = None) ->
  reliable_from E w ->
  NoDup (job_topic <$> bus_jobs (Scheduler.Jobs cfg)) ->
  (forall name, name ∈ job_topic <$> bus_jobs (Scheduler.Jobs cfg) ->
                name ∉ bus_topics w) ->
  interrupt E = true \/ duration a <> 0 ->
  let r := Scheduler.main E a (Decoded cfg) w in
  out r = Return tt
  /\ created_topics (events r) = job_topic <$> bus_jobs (Scheduler.Jobs cfg)
  /\ deleted_topics (events r) = job_topic <$> bus_jobs (Scheduler.Jobs cfg)
  /\ bus_topics (final r) = bus_topics w.
Proof.
  intros Hhelp Hconf Hclient Hparse Hrel Hnodup Hfresh Hend. cbn zeta.
  assert (Hconf' : String.eqb (conf a) "" = false) by by apply String.eqb_neq.
  unfold Scheduler.main. rewrite Hhelp, Hconf', Hclient.
  destruct (add_jobs_succeeds E (Scheduler.Jobs cfg) [] [] w Hparse Hrel Hnodup Hfresh)
    as (Hout & Hcreated & _ & Hbus).
  rewrite (bind_Return _ _ _ _ Hout). cbn [fst snd app].
  pose proof (add_jobs_rpcs E (Scheduler.Jobs cfg) [] [] w) as Hrpcs.
  pose proof (add_jobs_events E (Scheduler.Jobs cfg) [] [] w) as Hev.
  set (w1 := final (Scheduler.add_jobs E (Scheduler.Jobs cfg) [] [] w)) in *.
  assert (Hrel1 : reliable_from E w1) by (eapply reliable_from_mono; [exact Hrpcs|exact Hrel]).
  assert (Hin1 : forall t, t ∈ job_topic <$> bus_jobs (Scheduler.Jobs cfg) ->
                           t ∈ bus_topics w1).
  { intros t Ht. rewrite Hbus. apply elem_of_union. left. by apply elem_of_list_to_set. }
  destruct (scheduler_tail_clean E a (job_topic <$> bus_jobs (Scheduler.Jobs cfg))
              (job_entry <$> bus_jobs (Scheduler.Jobs cfg)) w1 Hrel1 Hnodup Hin1 Hend)
    as (To & Tc & Td & Tb).
  cbn zeta in To, Tc, Td, Tb.
  cbn [out final events prepend].
  rewrite created_topics_app, deleted_topics_app, To, Tc, Td, Tb, Hcreated, Hbus.
  rewrite (deleted_topics_startup _ Hev), app_nil_r.
  split_and!; try done.
  apply set_eq. intros x.
  rewrite elem_of_difference, elem_of_union, elem_of_list_to_set.
  split; [tauto|]. intros Hx. split; [by right|]. intros Hin. by apply (Hfresh x).
Qed.

Lemma ended_scheduler_removes_its_topics_witness :
  out (Scheduler.main undisturbed one_minute (Decoded two_jobs) empty_project) = Return tt
  /\ deleted_topics (events (Scheduler.main undisturbed one_minute (Decoded two_jobs)
                               empty_project)) = ["t1"; "t2"]
  /\ bus_topics (final (Scheduler.main undisturbed one_minute (Decoded two_jobs)
                          empty_project)) = bus_topics empty_project.
Proof.
  assert (H1 : forall j, j ∈ bus_jobs (Scheduler.Jobs two_jobs) ->
                 cron_parse undisturbed (Scheduler.cronspec j) = None).
  { intros j Hj. apply list_elem_of_In in Hj.
    vm_compute in Hj. destruct Hj as [<-|[<-|[]]]; reflexivity. }
  assert (H2 : reliable_from undisturbed empty_project) by (intros n _; reflexivity).
  assert (H3 : NoDup (job_topic <$> bus_jobs (Scheduler.Jobs two_jobs))).
  { change (NoDup ["t1"; "t2"]). apply NoDup_cons. split; [|apply NoDup_singleton].
    intros H%list_elem_of_singleton. discriminate. }
  assert (H4 : forall name, name ∈ job_topic <$> bus_jobs (Scheduler.Jobs two_jobs) ->
                 name ∉ bus_topics empty_project).
  { intros name _. apply not_elem_of_empty. }
  assert (H5 : interrupt undisturbed = true \/ duration one_minute <> 0).
  { right. discriminate. }
  destruct (ended_scheduler_removes_its_topics undisturbed one_minute two_jobs empty_project
              eq_refl ltac:(discriminate) eq_refl H1 H2 H3 H4 H5) as (Ho & _ & Hd & Hb).
  split; [exact Ho|]. split; [exact Hd|exact Hb].
Defined.
